(** * The AGX opcode header generator

    A shallow embedding of [src/asahi/compiler/agx_opcodes.h.py]: a Mako
    template rendered over three schema inputs ([opcodes], [immediates],
    [enums]) and printed on standard output.

    The file has four layers:
    - [Py]: the Python values and string methods the template calls;
    - [Mako]: the rendering buffer and the exceptions, as a small monad;
    - [template], [render], [main]: the program, line by line;
    - [C]: the enumerations and the reflection function the artifact
      declares, with the values C gives them, linked to the rendered text
      by equations. *)

From Stdlib Require Import String Ascii List ZArith Lia Bool Arith.
From Stdlib Require Import DecimalString Decimal.
From Stdlib Require DecimalNat DecimalZ DecimalPos.
Import ListNotations.
Open Scope string_scope.

(** ** Characters that cannot be written inside a literal *)

Definition nl : string := String (ascii_of_nat 10) EmptyString.
Definition dq : string := String (ascii_of_nat 34) EmptyString.

(** ** Python values *)

Module Py.

(** [str.upper] on ASCII text: the letters a-z move to A-Z and every other
    character stays.  Schema identifiers are ASCII; code points above 127
    are left alone here. *)
Definition upper_char (c : ascii) : ascii :=
  let n := nat_of_ascii c in
  if ((97 <=? n) && (n <=? 122))%nat then ascii_of_nat (n - 32) else c.

Fixpoint upper (s : string) : string :=
  match s with
  | EmptyString => EmptyString
  | String c s' => String (upper_char c) (upper s')
  end.

(** [s.replace(old, new)] for one-character [old] and [new]. *)
Fixpoint replace (old new : ascii) (s : string) : string :=
  match s with
  | EmptyString => EmptyString
  | String c s' =>
      String (if Ascii.eqb c old then new else c) (replace old new s')
  end.

(** [str(k)] of an int: decimal digits, a leading minus sign if negative.
    The interpreter's limit on the number of digits [str] converts (4300 by
    default) is outside the model. *)
Definition str_int (k : Z) : string := NilZero.string_of_int (Z.to_int k).
Definition str_nat (i : nat) : string := NilZero.string_of_uint (Nat.to_uint i).

(** [enumerate(l)]: the items paired with their 0-based positions. *)
Fixpoint enumerate_from {A} (i : nat) (l : list A) : list (nat * A) :=
  match l with
  | [] => []
  | x :: l' => (i, x) :: enumerate_from (S i) l'
  end.
Definition enumerate {A} (l : list A) : list (nat * A) := enumerate_from 0 l.

(** A dict keeps its items in insertion order and holds each key once:
    an association list, with [wf] for the uniqueness of the keys. *)
Definition dict (K V : Type) : Type := list (K * V).

Definition keys {K V} (d : dict K V) : list K := map fst d.
Definition items {K V} (d : dict K V) : list (K * V) := d.
Definition wf {K V} (d : dict K V) : Prop := NoDup (keys d).

Fixpoint get {V} (d : dict string V) (k : string) : option V :=
  match d with
  | [] => None
  | (k', v) :: d' => if String.eqb k' k then Some v else get d' k
  end.

End Py.

(** ** The rendering context *)

Module Mako.

Inductive exn : Type :=
| AssertionError
| KeyError.

(** A template body writes to the buffer of the rendering context or
    raises; the buffer of a run that raised is dropped. *)
Definition M (A : Type) : Type := string -> exn + (A * string).

Definition ret {A} (a : A) : M A := fun buf => inr (a, buf).

Definition bind {A B} (m : M A) (k : A -> M B) : M B :=
  fun buf =>
    match m buf with
    | inl e => inl e
    | inr (a, buf') => k a buf'
    end.

Definition raise {A} (e : exn) : M A := fun _ => inl e.

Definition write (s : string) : M unit := fun buf => inr (tt, buf ++ s).

Definition assert_ (b : bool) : M unit :=
  if b then ret tt else raise AssertionError.

(** [d[k]] *)
Definition getitem {V} (d : Py.dict string V) (k : string) : M V :=
  match Py.get d k with
  | Some v => ret v
  | None => raise KeyError
  end.

Fixpoint for_each {A} (l : list A) (body : A -> M unit) : M unit :=
  match l with
  | [] => ret tt
  | x :: l' => bind (body x) (fun _ => for_each l' body)
  end.

(** One line of template text: its fragments, then the newline. *)
Definition line (fragments : list string) : M unit :=
  write (String.concat EmptyString fragments ++ nl).

(** [Template(...).render(...)]: the body runs on an empty buffer, and the
    buffer is the result. *)
Definition run (body : M unit) : exn + string :=
  match body EmptyString with
  | inl e => inl e
  | inr (_, buf) => inr buf
  end.

End Mako.

Import Mako.

Notation "m1 ;; m2" := (bind m1 (fun _ => m2))
  (at level 61, right associativity).
Notation "x <- m1 ;; m2" := (bind m1 (fun x => m2))
  (at level 61, m1 at next level, right associativity).

(** ** The program *)

(** The three names imported from the schema module [agx_opcodes]. *)
Record schema : Type := {
  opcodes : list string;
  immediates : list string;
  enums : Py.dict string (Py.dict Z string);
}.

Definition template (s : schema) : M unit :=
  line ["/*"] ;;
  line [" * Copyright 2021 Alyssa Rosenzweig"] ;;
  line [" * SPDX-License-Identifier: MIT"] ;;
  line [" */"] ;;
  line [] ;;
  line ["#ifndef _AGX_OPCODES_"] ;;
  line ["#define _AGX_OPCODES_"] ;;
  line [] ;;
  line ["#include <stdbool.h>"] ;;
  line ["#include <stdint.h>"] ;;
  line ["#include "; dq; "util/macros.h"; dq] ;;
  line [] ;;
  line ["enum agx_schedule_class {"] ;;
  line ["   AGX_SCHEDULE_CLASS_INVALID,"] ;;
  line ["   AGX_SCHEDULE_CLASS_NONE,"] ;;
  line ["   AGX_SCHEDULE_CLASS_LOAD,"] ;;
  line ["   AGX_SCHEDULE_CLASS_STORE,"] ;;
  line ["   AGX_SCHEDULE_CLASS_ATOMIC,"] ;;
  line ["   AGX_SCHEDULE_CLASS_COVERAGE,"] ;;
  line ["   AGX_SCHEDULE_CLASS_PRELOAD,"] ;;
  line ["   AGX_SCHEDULE_CLASS_BARRIER,"] ;;
  line ["};"] ;;
  line [] ;;
  line ["/* Listing of opcodes */"] ;;
  line [] ;;
  line ["enum agx_opcode {"] ;;
  for_each (opcodes s) (fun op =>
    line ["   AGX_OPCODE_"; Py.upper op; ","]) ;;
  line ["   AGX_NUM_OPCODES"] ;;
  line ["};"] ;;
  line [] ;;
  for_each (Py.keys (enums s)) (fun name =>
    line ["enum agx_"; name; " {"] ;;
    group <- getitem (enums s) name ;;
    for_each (Py.items group) (fun '(k, v) =>
      line ["   AGX_"; Py.upper name; "_";
            Py.upper (Py.replace "." "_" v); " = "; Py.str_int k; ","]) ;;
    line ["};"] ;;
    line [] ;;
    line ["static inline const char *"] ;;
    line ["agx_"; name; "_as_str(enum agx_"; name; " x)"] ;;
    line ["{"] ;;
    line ["    switch (x) {"] ;;
    group <- getitem (enums s) name ;;
    for_each (Py.items group) (fun '(k, v) =>
      line ["    case AGX_"; Py.upper name; "_";
            Py.upper (Py.replace "." "_" v); ": return "; dq; v; dq; ";"]) ;;
    line ["    default: UNREACHABLE("; dq; "Nonexhaustive enum"; dq; ");"] ;;
    line ["    }"] ;;
    line ["}"] ;;
    line []) ;;
  line [] ;;
  line ["/* Runtime accessible info on each defined opcode */"] ;;
  line [] ;;
  assert_ (List.length (immediates s) <? 64)%nat ;;
  line [] ;;
  line [] ;;
  line ["enum agx_immediate {"] ;;
  for_each (Py.enumerate (immediates s)) (fun '(i, imm) =>
    line ["   AGX_IMMEDIATE_"; Py.upper imm; " = (1ull << "; Py.str_nat i; "),"]) ;;
  line ["};"] ;;
  line [] ;;
  line ["struct agx_encoding {"] ;;
  line ["   uint64_t exact;"] ;;
  line ["   unsigned length_short : 4;"] ;;
  line ["   bool extensible : 1;"] ;;
  line ["};"] ;;
  line [] ;;
  line ["struct agx_opcode_info {"] ;;
  line ["   const char *name;"] ;;
  line ["   unsigned nr_srcs;"] ;;
  line ["   unsigned nr_dests;"] ;;
  line ["   uint64_t immediates;"] ;;
  line ["   struct agx_encoding encoding;"] ;;
  line ["   enum agx_schedule_class schedule_class;"] ;;
  line ["   bool is_float : 1;"] ;;
  line ["   bool can_eliminate : 1;"] ;;
  line ["   bool can_reorder : 1;"] ;;
  line ["};"] ;;
  line [] ;;
  line ["extern const struct agx_opcode_info agx_opcodes_info[AGX_NUM_OPCODES];"] ;;
  line [] ;;
  line ["#endif"].

(** [Template(template).render(opcodes=..., immediates=..., enums=...)] *)
Definition render (s : schema) : exn + string := run (template s).

(** The module's last statement, [print(render(...))]: what reaches standard
    output, and the exception that ended the run, if any.  [print] is only
    called with a finished text, and adds a newline. *)
Record outcome : Type := {
  stdout : string;
  raised : option exn;
}.

Definition main (s : schema) : outcome :=
  match render s with
  | inl e => {| stdout := EmptyString; raised := Some e |}
  | inr text => {| stdout := text ++ nl; raised := None |}
  end.

(** ** What the artifact declares, as C reads it *)

Module C.

(** An enumerator is written [NAME], [NAME = k] or [NAME = (1ull << i)]. *)
Inductive initializer : Type :=
| Implicit
| IntLit (k : Z)
| ShiftOne (i : nat).

Definition enumerator : Type := (string * initializer)%type.

Record enum_decl : Type := {
  tag : string;
  members : list enumerator;
  trailing_comma : bool;
}.

Definition print_initializer (i : initializer) : string :=
  match i with
  | Implicit => EmptyString
  | IntLit k => " = " ++ Py.str_int k
  | ShiftOne i => " = (1ull << " ++ Py.str_nat i ++ ")"
  end.

Definition print_enumerator (e : enumerator) : string :=
  "   " ++ fst e ++ print_initializer (snd e).

Fixpoint print_enumerators (comma_last : bool) (es : list enumerator) : string :=
  match es with
  | [] => EmptyString
  | [e] => print_enumerator e ++ (if comma_last then "," else EmptyString) ++ nl
  | e :: es' => print_enumerator e ++ "," ++ nl ++ print_enumerators comma_last es'
  end.

Definition print_enum (d : enum_decl) : string :=
  "enum " ++ tag d ++ " {" ++ nl
  ++ print_enumerators (trailing_comma d) (members d)
  ++ "};" ++ nl.

(** The value of the decimal constant printed for [k], as a compiler with
    64-bit enumerators reads it.  Below 2^63 in magnitude the constant has a
    signed type and the value [k].  A larger constant is cut to 64 bits and,
    from 2^63 on, is unsigned, so that a minus sign before it wraps around. *)
Definition constant_value (k : Z) : Z :=
  let m := (Z.abs k mod 2 ^ 64)%Z in
  if (0 <=? k)%Z then m
  else if (m <? 2 ^ 63)%Z then (- m)%Z
  else (2 ^ 64 - m)%Z.

(** The keys whose constant has their own value. *)
Definition representable (k : Z) : Prop := (- 2 ^ 63 < k < 2 ^ 63)%Z.

(** The value of an enumerator: its initializer if it has one, else one
    more than the enumerator before it, and 0 for the first.  [1ull << i]
    is a shift in the 64-bit unsigned type. *)
Definition initializer_value (next : Z) (i : initializer) : Z :=
  match i with
  | Implicit => next
  | IntLit k => constant_value k
  | ShiftOne i => Z.shiftl 1 (Z.of_nat i) mod 2 ^ 64
  end.

Fixpoint values_from (next : Z) (es : list enumerator) : list (string * Z) :=
  match es with
  | [] => []
  | (n, i) :: es' =>
      let v := initializer_value next i in
      (n, v) :: values_from (v + 1) es'
  end.

(** The values of a declaration, in order.  C takes a declaration only when
    it names no enumerator twice; [value_of] is used under that condition. *)
Definition values (d : enum_decl) : list (string * Z) :=
  values_from 0 (members d).

Fixpoint value_of (env : list (string * Z)) (n : string) : option Z :=
  match env with
  | [] => None
  | (n', v) :: env' => if String.eqb n' n then Some v else value_of env' n
  end.

(** The reflection function: a switch whose arms are
    [case LABEL: return "literal";], closed by an unreachable default. *)
Record arm : Type := {
  label : string;
  literal : string;
}.

Record as_str_fn : Type := {
  fn_name : string;
  param_enum : string;
  arms : list arm;
}.

Definition print_arm (a : arm) : string :=
  "    case " ++ label a ++ ": return " ++ dq ++ literal a ++ dq ++ ";" ++ nl.

Definition print_as_str (f : as_str_fn) : string :=
  "static inline const char *" ++ nl
  ++ fn_name f ++ "(enum " ++ param_enum f ++ " x)" ++ nl
  ++ "{" ++ nl
  ++ "    switch (x) {" ++ nl
  ++ String.concat EmptyString (map print_arm (arms f))
  ++ "    default: UNREACHABLE(" ++ dq ++ "Nonexhaustive enum" ++ dq ++ ");" ++ nl
  ++ "    }" ++ nl
  ++ "}" ++ nl.

Inductive result : Type :=
| Returns (s : string)
| Unreachable.

(** The switch on [x]: the arm whose label has the value [x] returns its
    literal; when no label has it, control reaches the default. *)
Fixpoint switch (env : list (string * Z)) (arms : list arm) (x : Z) : result :=
  match arms with
  | [] => Unreachable
  | a :: arms' =>
      match value_of env (label a) with
      | Some v => if Z.eqb v x then Returns (literal a) else switch env arms' x
      | None => switch env arms' x
      end
  end.

Definition call (d : enum_decl) (f : as_str_fn) (x : Z) : result :=
  switch (values d) (arms f) x.

End C.

(** ** The declarations of one artifact *)

Definition schedule_class_enum : C.enum_decl := {|
  C.tag := "agx_schedule_class";
  C.members := map (fun n => (n, C.Implicit))
    ["AGX_SCHEDULE_CLASS_INVALID"; "AGX_SCHEDULE_CLASS_NONE";
     "AGX_SCHEDULE_CLASS_LOAD"; "AGX_SCHEDULE_CLASS_STORE";
     "AGX_SCHEDULE_CLASS_ATOMIC"; "AGX_SCHEDULE_CLASS_COVERAGE";
     "AGX_SCHEDULE_CLASS_PRELOAD"; "AGX_SCHEDULE_CLASS_BARRIER"];
  C.trailing_comma := true;
|}.

Definition opcode_enumerant (op : string) : string :=
  "AGX_OPCODE_" ++ Py.upper op.

Definition opcode_enum (ops : list string) : C.enum_decl := {|
  C.tag := "agx_opcode";
  C.members := map (fun op => (opcode_enumerant op, C.Implicit)) ops
               ++ [("AGX_NUM_OPCODES", C.Implicit)];
  C.trailing_comma := false;
|}.

(** The label of an enum group as it enters an identifier: dots become
    underscores, then upper case. *)
Definition normalize (v : string) : string :=
  Py.upper (Py.replace "." "_" v).

Definition group_enumerant (name v : string) : string :=
  "AGX_" ++ Py.upper name ++ "_" ++ normalize v.

Definition group_enum (name : string) (group : Py.dict Z string) : C.enum_decl := {|
  C.tag := "agx_" ++ name;
  C.members := map (fun '(k, v) => (group_enumerant name v, C.IntLit k)) group;
  C.trailing_comma := true;
|}.

Definition group_as_str (name : string) (group : Py.dict Z string) : C.as_str_fn := {|
  C.fn_name := "agx_" ++ name ++ "_as_str";
  C.param_enum := "agx_" ++ name;
  C.arms := map (fun '(k, v) =>
                   {| C.label := group_enumerant name v; C.literal := v |}) group;
|}.

Definition immediate_enumerant (imm : string) : string :=
  "AGX_IMMEDIATE_" ++ Py.upper imm.

Definition immediate_enum (imms : list string) : C.enum_decl := {|
  C.tag := "agx_immediate";
  C.members := map (fun '(i, imm) => (immediate_enumerant imm, C.ShiftOne i))
                   (Py.enumerate imms);
  C.trailing_comma := true;
|}.

(** ** The text of one artifact, section by section *)

Definition header_guard : string :=
  "/*" ++ nl
  ++ " * Copyright 2021 Alyssa Rosenzweig" ++ nl
  ++ " * SPDX-License-Identifier: MIT" ++ nl
  ++ " */" ++ nl
  ++ nl
  ++ "#ifndef _AGX_OPCODES_" ++ nl
  ++ "#define _AGX_OPCODES_" ++ nl
  ++ nl
  ++ "#include <stdbool.h>" ++ nl
  ++ "#include <stdint.h>" ++ nl
  ++ "#include " ++ dq ++ "util/macros.h" ++ dq ++ nl
  ++ nl.

Definition schedule_class_section : string :=
  C.print_enum schedule_class_enum ++ nl.

Definition opcode_section (ops : list string) : string :=
  "/* Listing of opcodes */" ++ nl
  ++ nl
  ++ C.print_enum (opcode_enum ops) ++ nl.

Definition group_section (name : string) (group : Py.dict Z string) : string :=
  C.print_enum (group_enum name group) ++ nl
  ++ C.print_as_str (group_as_str name group) ++ nl.

(** The groups are visited by key and fetched by [enums[name]]. *)
Definition groups_section (es : Py.dict string (Py.dict Z string)) : string :=
  String.concat EmptyString
    (map (fun name => match Py.get es name with
                      | Some group => group_section name group
                      | None => EmptyString
                      end)
         (Py.keys es)).

Definition immediate_section (imms : list string) : string :=
  nl
  ++ "/* Runtime accessible info on each defined opcode */" ++ nl
  ++ nl
  ++ nl
  ++ nl
  ++ C.print_enum (immediate_enum imms) ++ nl.

Definition encoding_shape : string :=
  "struct agx_encoding {" ++ nl
  ++ "   uint64_t exact;" ++ nl
  ++ "   unsigned length_short : 4;" ++ nl
  ++ "   bool extensible : 1;" ++ nl
  ++ "};" ++ nl
  ++ nl.

Definition opcode_info_shape : string :=
  "struct agx_opcode_info {" ++ nl
  ++ "   const char *name;" ++ nl
  ++ "   unsigned nr_srcs;" ++ nl
  ++ "   unsigned nr_dests;" ++ nl
  ++ "   uint64_t immediates;" ++ nl
  ++ "   struct agx_encoding encoding;" ++ nl
  ++ "   enum agx_schedule_class schedule_class;" ++ nl
  ++ "   bool is_float : 1;" ++ nl
  ++ "   bool can_eliminate : 1;" ++ nl
  ++ "   bool can_reorder : 1;" ++ nl
  ++ "};" ++ nl
  ++ nl.

Definition info_table_decl : string :=
  "extern const struct agx_opcode_info agx_opcodes_info[AGX_NUM_OPCODES];" ++ nl
  ++ nl.

Definition guard_end : string := "#endif" ++ nl.

Definition artifact (s : schema) : string :=
  header_guard
  ++ schedule_class_section
  ++ opcode_section (opcodes s)
  ++ groups_section (enums s)
  ++ immediate_section (immediates s)
  ++ encoding_shape
  ++ opcode_info_shape
  ++ info_table_decl
  ++ guard_end.

(** The lines the template's loops write, one per item. *)
Definition opcode_line (op : string) : string :=
  C.print_enumerator (opcode_enumerant op, C.Implicit) ++ "," ++ nl.

Definition group_enumerator_line (name : string) (e : Z * string) : string :=
  C.print_enumerator (let '(k, v) := e in (group_enumerant name v, C.IntLit k))
  ++ "," ++ nl.

Definition group_arm_line (name : string) (e : Z * string) : string :=
  C.print_arm (let '(k, v) := e in
               {| C.label := group_enumerant name v; C.literal := v |}).

Definition immediate_line (e : nat * string) : string :=
  C.print_enumerator (let '(i, imm) := e in (immediate_enumerant imm, C.ShiftOne i))
  ++ "," ++ nl.

(** ** Vocabulary of the statements *)

(** [writes m t]: whatever the buffer holds, [m] appends [t] and returns. *)
Definition writes (m : M unit) (t : string) : Prop :=
  forall buf, m buf = inr (tt, buf ++ t).

(** [returns m]: whatever the buffer holds, [m] ends without an exception. *)
Definition returns (m : M unit) : Prop :=
  forall buf, exists buf', m buf = inr (tt, buf').

(** [raises m e]: whatever the buffer holds, [m] ends in the exception [e]. *)
Definition raises (m : M unit) (e : exn) : Prop :=
  forall buf, m buf = inl e.

(** [sub] occurs in [text]. *)
Definition Substring (sub text : string) : Prop :=
  exists pre post, text = pre ++ sub ++ post.

(** The offset of the first occurrence of [sub] in [text]. *)
Definition offset (sub text : string) : option nat := String.index 0 sub text.

Definition occurs (sub text : string) : bool :=
  match offset sub text with
  | Some _ => true
  | None => false
  end.

(** The labels of a group as they enter its enumerants. *)
Definition normalized_labels (group : Py.dict Z string) : list string :=
  map (fun '(_, v) => normalize v) group.

(** The defects of names the template never looks for: an empty or repeated
    opcode name, a group with two labels that normalize to the same text. *)
Definition name_defect (s : schema) : Prop :=
  In EmptyString (opcodes s)
  \/ ~ NoDup (opcodes s)
  \/ Exists (fun '(_, group) => ~ NoDup (normalized_labels group)) (enums s).

(** The example schema of the specification. *)
Definition size_group : Py.dict Z string :=
  [(0%Z, "8"); (1%Z, "16"); (2%Z, "32")].

Definition scenario : schema := {|
  opcodes := ["add"; "mov"];
  immediates := ["imm16"];
  enums := [("size", size_group)];
|}.

(** A schema that meets the invariants of the data model: fewer than 64
    immediate kinds; opcode names that are non-empty and pairwise distinct;
    enum groups whose integer keys are distinct (they are dicts) and whose
    labels stay distinct once normalized. *)
Definition valid (s : schema) : Prop :=
  (List.length (immediates s) < 64)%nat
  /\ ~ In EmptyString (opcodes s)
  /\ NoDup (opcodes s)
  /\ Py.wf (enums s)
  /\ Forall (fun '(_, group) => Py.wf group /\ NoDup (normalized_labels group))
            (enums s).

(** A schema with every defect of [name_defect], and no immediate kind. *)
Definition defective : schema := {|
  opcodes := ["add"; EmptyString; "add"];
  immediates := [];
  enums := [("cond", [(0%Z, "a.b"); (1%Z, "a_b")])];
|}.

(** A schema with [n] immediate kinds, [imm0], [imm1], ... *)
Definition with_immediates (n : nat) : schema := {|
  opcodes := opcodes scenario;
  immediates := map (fun i => "imm" ++ Py.str_nat i) (seq 0 n);
  enums := enums scenario;
|}.

(** A schema with a dot in an opcode name. *)
Definition dotted : schema := {|
  opcodes := ["ld.tile"];
  immediates := [];
  enums := [];
|}.

(** The number of distinct names in a list. *)
Definition count_distinct (l : list string) : nat :=
  List.length (nodup string_dec l).

(** The union of the flags of an enumeration, as a bit mask. *)
Definition mask (env : list (string * Z)) : Z :=
  fold_right (fun e m => Z.lor (snd e) m) 0%Z env.

(** ** Vocabulary of the further properties *)

(** An ASCII lower-case letter, the characters [str.upper] moves. *)
Definition lowercase (c : ascii) : bool :=
  let n := nat_of_ascii c in ((97 <=? n) && (n <=? 122))%nat.

Fixpoint all_chars (p : ascii -> bool) (s : string) : bool :=
  match s with
  | EmptyString => true
  | String c s' => p c && all_chars p s'
  end.

(** The schema with its opcode and immediate names upper-cased. *)
Definition upper_names (s : schema) : schema := {|
  opcodes := map Py.upper (opcodes s);
  immediates := map Py.upper (immediates s);
  enums := enums s;
|}.

(** A character of the ASCII range, where [Py.upper] is [str.upper]. *)
Definition ascii_char (c : ascii) : bool := (nat_of_ascii c <? 128)%nat.

(** The example schema with three immediate kinds. *)
Definition three_kinds : schema := {|
  opcodes := opcodes scenario;
  immediates := ["imm16"; "scoreboard"; "nest"];
  enums := enums scenario;
|}.

(** Reading back what [str] printed. *)
Definition int_of_str (t : string) : option Z :=
  option_map Z.of_int (NilZero.int_of_string t).

Definition nat_of_str (t : string) : option nat :=
  option_map Nat.of_uint (NilZero.uint_of_string t).

(** * Proofs *)

(** ** Strings *)

Lemma append_nil_r (s : string) : s ++ EmptyString = s.
Proof. induction s as [|c s IH]; simpl; [reflexivity | now rewrite IH]. Qed.

Lemma append_assoc (s t u : string) : (s ++ t) ++ u = s ++ t ++ u.
Proof. induction s as [|c s IH]; simpl; [reflexivity | now rewrite IH]. Qed.

Lemma append_inv_head (p s t : string) : p ++ s = p ++ t -> s = t.
Proof.
  induction p as [|c p IH]; simpl; intro H; [exact H|].
  injection H as H. now apply IH.
Qed.

Lemma concat_app (l1 l2 : list string) :
  String.concat EmptyString (l1 ++ l2)
  = String.concat EmptyString l1 ++ String.concat EmptyString l2.
Proof.
  induction l1 as [|x l1 IH]; [reflexivity|].
  destruct l1 as [|y l1].
  - destruct l2; simpl; [now rewrite append_nil_r | reflexivity].
  - change (x ++ String.concat EmptyString ((y :: l1) ++ l2)
            = (x ++ String.concat EmptyString (y :: l1))
              ++ String.concat EmptyString l2).
    now rewrite IH, append_assoc.
Qed.

Lemma concat_cons (x : string) (l : list string) :
  String.concat EmptyString (x :: l) = x ++ String.concat EmptyString l.
Proof. apply (concat_app [x] l). Qed.

Lemma concat_map_ext {A} (f g : A -> string) (l : list A) :
  (forall x, In x l -> f x = g x) ->
  String.concat EmptyString (map f l) = String.concat EmptyString (map g l).
Proof. intro H. f_equal. now apply map_ext_in. Qed.

Lemma Substring_refl (t : string) : Substring t t.
Proof. exists EmptyString, EmptyString. now rewrite append_nil_r. Qed.

Lemma Substring_trans (a b c : string) :
  Substring a b -> Substring b c -> Substring a c.
Proof.
  intros (p1 & q1 & ->) (p2 & q2 & ->).
  exists (p2 ++ p1), (q1 ++ q2). now rewrite !append_assoc.
Qed.

Lemma Substring_app_l (a t u : string) : Substring a t -> Substring a (t ++ u).
Proof.
  intros (p & q & ->). exists p, (q ++ u). now rewrite !append_assoc.
Qed.

Lemma Substring_app_r (a t u : string) : Substring a u -> Substring a (t ++ u).
Proof.
  intros (p & q & ->). exists (t ++ p), q. now rewrite !append_assoc.
Qed.

Lemma Substring_concat_map {A} (f : A -> string) (l : list A) (x : A) :
  In x l -> Substring (f x) (String.concat EmptyString (map f l)).
Proof.
  induction l as [|y l IH]; [intros []|].
  cbn [map]. rewrite concat_cons. intros [->|Hin].
  - apply Substring_app_l, Substring_refl.
  - now apply Substring_app_r, IH.
Qed.

Lemma substring_prefix (len : nat) (s : string) :
  exists post, s = substring 0 len s ++ post.
Proof.
  revert len. induction s as [|c s IH]; intros [|len]; cbn.
  - now exists EmptyString.
  - now exists EmptyString.
  - now exists (String c s).
  - destruct (IH len) as [post Hpost]. exists post. now rewrite <- Hpost.
Qed.

Lemma substring_inside (m len : nat) (s : string) :
  Substring (substring m len s) s.
Proof.
  revert m. induction s as [|c s IH]; intros [|m].
  - destruct len; apply Substring_refl.
  - apply Substring_refl.
  - destruct (substring_prefix len (String c s)) as [post Hpost].
    exists EmptyString, post. exact Hpost.
  - cbn. destruct (IH m) as (pre & post & Heq).
    exists (String c pre), post. cbn. now rewrite <- Heq.
Qed.

(** The test [occurs] is sound for [Substring]. *)
Lemma occurs_Substring (sub text : string) :
  occurs sub text = true -> Substring sub text.
Proof.
  unfold occurs, offset. destruct (index 0 sub text) as [m|] eqn:Hindex;
    [intros _ | discriminate].
  apply index_correct1 in Hindex. rewrite <- Hindex. apply substring_inside.
Qed.

(** ** The Python string methods, tried *)

Example upper_keeps_non_letters : Py.upper "ld.tile_8" = "LD.TILE_8".
Proof. reflexivity. Qed.

Example normalize_dots : normalize "f32.sat" = "F32_SAT".
Proof. reflexivity. Qed.

Example str_int_negative : Py.str_int (-15) = "-15".
Proof. reflexivity. Qed.

Example str_int_zero : Py.str_int 0 = "0".
Proof. reflexivity. Qed.

Example enumerate_pairs :
  Py.enumerate ["a"; "b"; "c"] = [(0, "a"); (1, "b"); (2, "c")]%nat.
Proof. reflexivity. Qed.

(** ** The rendering monad *)

Lemma writes_line (fragments : list string) :
  writes (line fragments) (String.concat EmptyString fragments ++ nl).
Proof. intro buf. reflexivity. Qed.

Lemma writes_line_as (fragments : list string) (t : string) :
  String.concat EmptyString fragments ++ nl = t -> writes (line fragments) t.
Proof. intros <-. apply writes_line. Qed.

Lemma writes_seq (m1 m2 : M unit) (t1 t2 : string) :
  writes m1 t1 -> writes m2 t2 -> writes (m1 ;; m2) (t1 ++ t2).
Proof.
  intros H1 H2 buf. unfold bind. rewrite H1, H2, append_assoc. reflexivity.
Qed.

Lemma writes_assert_true (m : M unit) (t : string) :
  writes m t -> writes (assert_ true ;; m) t.
Proof. intros H buf. unfold bind, assert_, ret. apply H. Qed.

Lemma writes_getitem {V} (d : Py.dict string V) (k : string) (v : V)
      (body : V -> M unit) (t : string) :
  Py.get d k = Some v -> writes (body v) t ->
  writes (x <- getitem d k ;; body x) t.
Proof.
  intros Hget H buf. unfold bind, getitem. rewrite Hget. apply H.
Qed.

Lemma writes_for_each {A} (l : list A) (body : A -> M unit) (f : A -> string) :
  (forall x, In x l -> writes (body x) (f x)) ->
  writes (for_each l body) (String.concat EmptyString (map f l)).
Proof.
  induction l as [|x l IH]; intros Hbody.
  - intro buf. simpl. unfold ret. now rewrite append_nil_r.
  - cbn [for_each map]. rewrite concat_cons.
    apply writes_seq; [apply Hbody; now left|].
    apply IH. intros y Hy. apply Hbody. now right.
Qed.

Lemma writes_ext (m : M unit) (t t' : string) :
  writes m t -> t = t' -> writes m t'.
Proof. now intros H <-. Qed.

Lemma writes_returns (m : M unit) (t : string) : writes m t -> returns m.
Proof. intros H buf. exists (buf ++ t). apply H. Qed.

Lemma raises_after (m1 m2 : M unit) (e : exn) :
  returns m1 -> raises m2 e -> raises (m1 ;; m2) e.
Proof.
  intros H1 H2 buf. unfold bind. destruct (H1 buf) as [buf' ->]. apply H2.
Qed.

Lemma raises_assert_false (m : M unit) :
  raises (assert_ false ;; m) AssertionError.
Proof. intro buf. reflexivity. Qed.

Lemma run_writes (m : M unit) (t : string) : writes m t -> run m = inr t.
Proof. intro H. unfold run. now rewrite H. Qed.

Lemma run_raises (m : M unit) (e : exn) : raises m e -> run m = inl e.
Proof. intro H. unfold run. now rewrite H. Qed.

(** ** Python dicts *)

Lemma get_keys {V} (d : Py.dict string V) (k : string) :
  In k (Py.keys d) -> exists v, Py.get d k = Some v.
Proof.
  induction d as [|[k' v'] d IH]; simpl; [tauto|].
  intros [->|Hin].
  - rewrite String.eqb_refl. now exists v'.
  - destruct (String.eqb k' k); [now exists v' | now apply IH].
Qed.

Lemma get_item {V} (d : Py.dict string V) (k : string) (v : V) :
  Py.wf d -> In (k, v) d -> Py.get d k = Some v.
Proof.
  unfold Py.wf, Py.keys.
  induction d as [|[k' v'] d IH]; simpl; [tauto|].
  intros Hnd [Heq|Hin]; inversion Hnd as [|? ? Hnotin Hnd']; subst.
  - inversion Heq; subst. now rewrite String.eqb_refl.
  - destruct (String.eqb_spec k' k) as [->|_]; [|now apply IH].
    exfalso. apply Hnotin. now apply (in_map fst _ (k, v)).
Qed.

(** ** The printers and the template's loops *)

Lemma print_enumerators_commas (es : list C.enumerator) :
  C.print_enumerators true es
  = String.concat EmptyString
      (map (fun e => C.print_enumerator e ++ "," ++ nl) es).
Proof.
  induction es as [|e es IH]; [reflexivity|].
  cbn [map]. rewrite concat_cons, <- IH.
  destruct es; [|now rewrite !append_assoc].
  cbn [C.print_enumerators]. now rewrite append_nil_r.
Qed.

Lemma print_enumerators_last (es : list C.enumerator) (e : C.enumerator) :
  C.print_enumerators false (es ++ [e])
  = String.concat EmptyString
      (map (fun e => C.print_enumerator e ++ "," ++ nl) es)
    ++ C.print_enumerator e ++ nl.
Proof.
  induction es as [|e' es IH]; [reflexivity|].
  cbn [map app]. rewrite concat_cons, append_assoc, <- IH.
  destruct es; now rewrite !append_assoc.
Qed.

Lemma opcode_section_lines (ops : list string) :
  opcode_section ops
  = "/* Listing of opcodes */" ++ nl
    ++ nl
    ++ "enum agx_opcode {" ++ nl
    ++ String.concat EmptyString (map opcode_line ops)
    ++ "   AGX_NUM_OPCODES" ++ nl
    ++ "};" ++ nl
    ++ nl.
Proof.
  unfold opcode_section, C.print_enum, opcode_enum.
  cbn [C.tag C.members C.trailing_comma].
  rewrite print_enumerators_last, map_map, !append_assoc. reflexivity.
Qed.

Lemma group_section_lines (name : string) (g : Py.dict Z string) :
  group_section name g
  = "enum agx_" ++ name ++ " {" ++ nl
    ++ String.concat EmptyString (map (group_enumerator_line name) g)
    ++ "};" ++ nl
    ++ nl
    ++ "static inline const char *" ++ nl
    ++ "agx_" ++ name ++ "_as_str(enum agx_" ++ name ++ " x)" ++ nl
    ++ "{" ++ nl
    ++ "    switch (x) {" ++ nl
    ++ String.concat EmptyString (map (group_arm_line name) g)
    ++ "    default: UNREACHABLE(" ++ dq ++ "Nonexhaustive enum" ++ dq ++ ");" ++ nl
    ++ "    }" ++ nl
    ++ "}" ++ nl
    ++ nl.
Proof.
  unfold group_section, C.print_enum, C.print_as_str, group_enum, group_as_str.
  cbn [C.tag C.members C.trailing_comma C.fn_name C.param_enum C.arms].
  rewrite print_enumerators_commas, !map_map, !append_assoc. reflexivity.
Qed.

Lemma immediate_section_lines (imms : list string) :
  immediate_section imms
  = nl
    ++ "/* Runtime accessible info on each defined opcode */" ++ nl
    ++ nl
    ++ nl
    ++ nl
    ++ "enum agx_immediate {" ++ nl
    ++ String.concat EmptyString (map immediate_line (Py.enumerate imms))
    ++ "};" ++ nl
    ++ nl.
Proof.
  unfold immediate_section, C.print_enum, immediate_enum.
  cbn [C.tag C.members C.trailing_comma].
  rewrite print_enumerators_commas, map_map, !append_assoc. reflexivity.
Qed.

(** ** The template, run *)

Ltac string_eq :=
  cbn; repeat (rewrite !append_assoc; cbn); reflexivity.

(** One statement of a template body: its text joins what the rest writes,
    or it returns before the rest raises. *)
Ltac step tac :=
  first [ eapply writes_seq; [tac|]
        | eapply raises_after; [eapply writes_returns; tac|] ].

Ltac lines := repeat (step ltac:(apply writes_line)).

Ltac loop f lemma :=
  apply (writes_for_each _ _ f); intros [? ?] _; apply writes_line_as;
  unfold lemma, C.print_enumerator, C.print_arm,
    group_enumerant, immediate_enumerant, normalize;
  string_eq.

Ltac opcodes_loop :=
  apply (writes_for_each _ _ opcode_line); intros ? _; apply writes_line_as;
  unfold opcode_line, C.print_enumerator, opcode_enumerant; string_eq.

Ltac groups_loop es :=
  apply (writes_for_each _ _
           (fun name => match Py.get es name with
                        | Some group => group_section name group
                        | None => EmptyString
                        end));
  let name := fresh "name" in
  let Hin := fresh "Hin" in
  let g := fresh "g" in
  let Hg := fresh "Hg" in
  intros name Hin; destruct (get_keys _ _ Hin) as [g Hg]; rewrite Hg;
  eapply writes_ext;
  [ lines;
    eapply writes_getitem; [exact Hg|];
    step ltac:(loop (group_enumerator_line name) group_enumerator_line);
    lines;
    eapply writes_getitem; [exact Hg|];
    step ltac:(loop (group_arm_line name) group_arm_line);
    lines; apply writes_line
  | rewrite group_section_lines; unfold Py.items; string_eq ].

Ltac before_assert s :=
  lines; step opcodes_loop; lines; step ltac:(groups_loop (enums s)); lines.

Lemma template_writes (s : schema) :
  (List.length (immediates s) < 64)%nat ->
  writes (template s) (artifact s).
Proof.
  intros Hlen. unfold template.
  apply Nat.ltb_lt in Hlen. rewrite Hlen.
  eapply writes_ext.
  - before_assert s.
    apply writes_assert_true.
    lines.
    step ltac:(loop immediate_line immediate_line).
    lines. apply writes_line.
  - unfold artifact, groups_section.
    rewrite opcode_section_lines, immediate_section_lines, !append_assoc.
    reflexivity.
Qed.

Lemma template_raises (s : schema) :
  (64 <= List.length (immediates s))%nat ->
  raises (template s) AssertionError.
Proof.
  intros Hlen. unfold template.
  apply Nat.ltb_ge in Hlen. rewrite Hlen.
  before_assert s.
  apply raises_assert_false.
Qed.

Lemma render_valid (s : schema) :
  (List.length (immediates s) < 64)%nat -> render s = inr (artifact s).
Proof. intro H. apply run_writes. now apply template_writes. Qed.

Lemma render_overflow (s : schema) :
  (64 <= List.length (immediates s))%nat -> render s = inl AssertionError.
Proof. intro H. apply run_raises. now apply template_raises. Qed.

Lemma render_inv (s : schema) (text : string) :
  render s = inr text ->
  (List.length (immediates s) < 64)%nat /\ text = artifact s.
Proof.
  intro H. destruct (Nat.lt_ge_cases (List.length (immediates s)) 64) as [Hlt|Hge].
  - rewrite (render_valid s Hlt) in H. now injection H as <-.
  - rewrite (render_overflow s Hge) in H. discriminate.
Qed.

Lemma main_valid (s : schema) :
  (List.length (immediates s) < 64)%nat ->
  main s = {| stdout := artifact s ++ nl; raised := None |}.
Proof. intro H. unfold main. now rewrite render_valid. Qed.

Lemma main_overflow (s : schema) :
  (64 <= List.length (immediates s))%nat ->
  main s = {| stdout := EmptyString; raised := Some AssertionError |}.
Proof. intro H. unfold main. now rewrite render_overflow. Qed.

(** With each key held once, the groups come out in declaration order, each
    with its own items. *)
Lemma groups_section_items (es : Py.dict string (Py.dict Z string)) :
  Py.wf es ->
  groups_section es
  = String.concat EmptyString
      (map (fun '(name, group) => group_section name group) (Py.items es)).
Proof.
  intro Hwf. unfold groups_section, Py.keys, Py.items. rewrite map_map.
  apply concat_map_ext. intros [name g] Hin. cbn [fst].
  now rewrite (get_item _ _ _ Hwf Hin).
Qed.

(** ** The example schemas *)

Lemma scenario_valid : valid scenario.
Proof.
  unfold valid, scenario, Py.wf, Py.keys, normalized_labels, size_group; cbn.
  repeat split; try lia; try (intuition discriminate);
    repeat (constructor; cbn; try (intuition discriminate)).
Qed.

Lemma defective_has_defects :
  In EmptyString (opcodes defective)
  /\ ~ NoDup (opcodes defective)
  /\ Exists (fun '(_, group) => ~ NoDup (normalized_labels group))
            (enums defective).
Proof.
  split; [cbn; tauto|]. split.
  - intro H. inversion H as [|? ? Hnotin _]; subst. apply Hnotin. cbn. tauto.
  - constructor. intro H. inversion H as [|? ? Hnotin _]; subst.
    apply Hnotin. cbn. tauto.
Qed.

(** * The claims *)

(** ** Validation *)

(** C1 (amended): a schema in which an opcode name is empty or repeated, or
    in which two labels of an enum group normalize to the same text, is not
    stopped by that defect, for the template checks no name and no label.
    Generation prints the complete artifact when there are fewer than 64
    immediate kinds, and ends in the assertion error of the template, with
    nothing printed, when there are 64 or more. *)
Theorem name_defects_are_not_checked (s : schema) :
  name_defect s ->
  main s = if (List.length (immediates s) <? 64)%nat
           then {| stdout := artifact s ++ nl; raised := None |}
           else {| stdout := EmptyString; raised := Some AssertionError |}.
Proof.
  intros _. destruct (Nat.ltb_spec (List.length (immediates s)) 64).
  - now apply main_valid.
  - now apply main_overflow.
Qed.

Lemma name_defects_are_not_checked_witness :
  name_defect defective
  /\ main defective = {| stdout := artifact defective ++ nl; raised := None |}.
Proof.
  assert (Hdefect : name_defect defective) by (left; apply defective_has_defects).
  split; [exact Hdefect|].
  exact (name_defects_are_not_checked defective Hdefect).
Defined.

(** C1 as stated fails: the schema [defective] has an empty opcode name, a
    repeated opcode name and a group with two labels of one normalized text,
    and generation raises nothing and prints an artifact. *)
Lemma defective_schema_is_rendered :
  In EmptyString (opcodes defective)
  /\ ~ NoDup (opcodes defective)
  /\ Exists (fun '(_, group) => ~ NoDup (normalized_labels group))
            (enums defective)
  /\ raised (main defective) = None
  /\ stdout (main defective) = artifact defective ++ nl
  /\ stdout (main defective) <> EmptyString.
Proof.
  destruct defective_has_defects as (H1 & H2 & H3).
  repeat split; try assumption; try reflexivity.
  vm_compute. discriminate.
Qed.

(** C2: with 64 or more immediate kinds generation fails, on the assertion of
    the template, and nothing at all is printed; with exactly 63 the strict
    bound holds and the artifact is printed. *)
Theorem immediate_count_bound (s : schema) :
  ((64 <= List.length (immediates s))%nat ->
   main s = {| stdout := EmptyString; raised := Some AssertionError |})
  /\ (List.length (immediates s) = 63%nat ->
      main s = {| stdout := artifact s ++ nl; raised := None |}).
Proof.
  split; intro H.
  - now apply main_overflow.
  - apply main_valid. lia.
Qed.

Lemma immediate_count_bound_witness :
  main (with_immediates 64)
  = {| stdout := EmptyString; raised := Some AssertionError |}
  /\ main (with_immediates 63)
     = {| stdout := artifact (with_immediates 63) ++ nl; raised := None |}.
Proof.
  split.
  - apply (proj1 (immediate_count_bound (with_immediates 64))).
    apply Nat.leb_le. reflexivity.
  - apply (proj2 (immediate_count_bound (with_immediates 63))).
    reflexivity.
Defined.

(** ** The order of the sections *)

(** C3 (amended): for every valid schema the sections of the artifact are, in
    this order: the header guard, the ScheduleClass enumeration, the opcode
    enumeration, the enumeration and reflection function of each enum group
    in declaration order, the immediate bit-flag enumeration, the
    EncodingShape and OpcodeInfoShape records, the extern declaration of the
    opcode-info table sized by the opcode count, and the end of the guard. *)
Theorem sections_in_template_order (s : schema) :
  valid s ->
  render s
  = inr (header_guard
         ++ schedule_class_section
         ++ opcode_section (opcodes s)
         ++ String.concat EmptyString
              (map (fun '(name, group) => group_section name group) (enums s))
         ++ immediate_section (immediates s)
         ++ encoding_shape
         ++ opcode_info_shape
         ++ info_table_decl
         ++ guard_end).
Proof.
  intros (Hlen & _ & _ & Hwf & _).
  rewrite (render_valid s Hlen). unfold artifact.
  now rewrite (groups_section_items _ Hwf).
Qed.

Lemma sections_in_template_order_witness :
  render scenario
  = inr (header_guard
         ++ schedule_class_section
         ++ opcode_section ["add"; "mov"]
         ++ group_section "size" size_group
         ++ immediate_section ["imm16"]
         ++ encoding_shape
         ++ opcode_info_shape
         ++ info_table_decl
         ++ guard_end).
Proof.
  exact (sections_in_template_order scenario scenario_valid).
Defined.

(** C3 as stated fails: in the artifact of the example schema the opcode
    enumeration starts before the enumeration of the group, before the
    immediate flags and before the two records, not after them. *)
Lemma opcode_enum_precedes_records :
  valid scenario
  /\ exists text,
       render scenario = inr text
       /\ offset "enum agx_schedule_class {" text = Some 188%nat
       /\ offset "enum agx_opcode {" text = Some 484%nat
       /\ offset "enum agx_size {" text = Some 563%nat
       /\ offset "enum agx_immediate {" text = Some 938%nat
       /\ offset "struct agx_encoding {" text = Some 1001%nat
       /\ offset "struct agx_opcode_info {" text = Some 1100%nat.
Proof.
  split; [exact scenario_valid|].
  exists (artifact scenario).
  split; [apply render_valid; cbn; lia|].
  repeat split; vm_compute; reflexivity.
Qed.

(** ** The values of the enumerators *)

Lemma nth_error_enumerate_from {A} (a : nat) (l : list A) (i : nat) :
  nth_error (Py.enumerate_from a l) i
  = option_map (fun x => ((a + i)%nat, x)) (nth_error l i).
Proof.
  revert a i. induction l as [|x l IH]; intros a [|i]; cbn; try reflexivity.
  - now rewrite Nat.add_0_r.
  - rewrite IH. now rewrite Nat.add_succ_r.
Qed.

Lemma In_enumerate_from {A} (a : nat) (l : list A) (i : nat) (x : A) :
  In (i, x) (Py.enumerate_from a l) -> (a <= i < a + List.length l)%nat.
Proof.
  revert a. induction l as [|y l IH]; intros a; cbn; [tauto|].
  intros [Heq|Hin].
  - inversion Heq; subst. lia.
  - apply IH in Hin. lia.
Qed.

Lemma length_enumerate_from {A} (a : nat) (l : list A) :
  List.length (Py.enumerate_from a l) = List.length l.
Proof. revert a. induction l as [|x l IH]; intros a; cbn; [|rewrite IH]; reflexivity. Qed.

Lemma opcode_values_from (a : nat) (ops : list string) :
  C.values_from (Z.of_nat a)
    (map (fun op => (opcode_enumerant op, C.Implicit)) ops
     ++ [("AGX_NUM_OPCODES", C.Implicit)])%list
  = (map (fun '(i, op) => (opcode_enumerant op, Z.of_nat i))
         (Py.enumerate_from a ops)
     ++ [("AGX_NUM_OPCODES", Z.of_nat (a + List.length ops))])%list.
Proof.
  revert a. induction ops as [|op ops IH]; intros a.
  - cbn. now rewrite Nat.add_0_r.
  - cbn [map Py.enumerate_from List.length]. rewrite <- !app_comm_cons.
    cbn [C.values_from C.initializer_value].
    replace (Z.of_nat a + 1)%Z with (Z.of_nat (S a)) by lia.
    rewrite IH. now rewrite Nat.add_succ_r.
Qed.

Lemma opcode_values (ops : list string) :
  C.values (opcode_enum ops)
  = (map (fun '(i, op) => (opcode_enumerant op, Z.of_nat i)) (Py.enumerate ops)
     ++ [("AGX_NUM_OPCODES", Z.of_nat (List.length ops))])%list.
Proof. apply (opcode_values_from 0). Qed.

Lemma constant_value_representable (k : Z) :
  C.representable k -> C.constant_value k = k.
Proof.
  unfold C.representable, C.constant_value. intro H.
  rewrite Z.mod_small by lia.
  destruct (Z.leb_spec 0 k); [lia|].
  destruct (Z.ltb_spec (Z.abs k) (2 ^ 63)); lia.
Qed.

Example constant_small : C.constant_value (-5) = (-5)%Z.
Proof. reflexivity. Qed.

Example constant_cut_to_64_bits : C.constant_value (2 ^ 64) = 0%Z.
Proof. reflexivity. Qed.

Example constant_unsigned_from_2_63 :
  C.constant_value (- (2 ^ 63 + 1)) = (2 ^ 63 - 1)%Z.
Proof. reflexivity. Qed.

(** Outside the representable keys the round trip is lost: a group whose
    only key is 2^64 declares its enumerant with the value 0. *)
Example oversized_key_wraps :
  C.call (group_enum "g" [((2 ^ 64)%Z, "a")]) (group_as_str "g" [((2 ^ 64)%Z, "a")]) 0
  = C.Returns "a".
Proof. reflexivity. Qed.

Lemma group_values (name : string) (group : Py.dict Z string) :
  Forall (fun e => C.representable (fst e)) group ->
  C.values (group_enum name group)
  = map (fun '(k, v) => (group_enumerant name v, k)) group.
Proof.
  unfold C.values, group_enum. cbn [C.members]. generalize 0%Z.
  induction group as [|[k v] group IH]; intros n Hkeys; [reflexivity|].
  inversion Hkeys as [|? ? Hk Hrest]; subst. cbn [fst] in Hk.
  cbn [map C.values_from C.initializer_value].
  now rewrite (constant_value_representable k Hk), IH.
Qed.

Lemma shift_one (i : nat) :
  (i < 64)%nat -> (Z.shiftl 1 (Z.of_nat i) mod 2 ^ 64 = 2 ^ Z.of_nat i)%Z.
Proof.
  intro H. rewrite Z.shiftl_1_l. apply Z.mod_small. split.
  - apply Z.pow_nonneg. lia.
  - apply Z.pow_lt_mono_r; lia.
Qed.

Lemma immediate_values_from (n : Z) (a : nat) (imms : list string) :
  (a + List.length imms <= 64)%nat ->
  C.values_from n
    (map (fun '(i, imm) => (immediate_enumerant imm, C.ShiftOne i))
         (Py.enumerate_from a imms))
  = map (fun '(i, imm) => (immediate_enumerant imm, (2 ^ Z.of_nat i)%Z))
        (Py.enumerate_from a imms).
Proof.
  revert n a. induction imms as [|imm imms IH]; intros n a Hlen; [reflexivity|].
  cbn [Py.enumerate_from map C.values_from C.initializer_value].
  cbn [List.length] in Hlen.
  rewrite shift_one by lia. f_equal. apply IH. lia.
Qed.

Lemma immediate_values (imms : list string) :
  (List.length imms < 64)%nat ->
  C.values (immediate_enum imms)
  = map (fun '(i, imm) => (immediate_enumerant imm, (2 ^ Z.of_nat i)%Z))
        (Py.enumerate imms).
Proof. intro H. apply immediate_values_from. lia. Qed.

(** ** Bit masks *)

Lemma pow2_testbit (i : nat) (b : Z) :
  Z.testbit (2 ^ Z.of_nat i) b = (Z.of_nat i =? b)%Z.
Proof. apply Z.pow2_bits_eqb. lia. Qed.

Lemma pow2_disjoint (i j : nat) :
  i <> j -> Z.land (2 ^ Z.of_nat i) (2 ^ Z.of_nat j) = 0%Z.
Proof.
  intro H. apply Z.bits_inj'. intros b _.
  rewrite Z.land_spec, !pow2_testbit, Z.bits_0.
  destruct (Z.eqb_spec (Z.of_nat i) b), (Z.eqb_spec (Z.of_nat j) b);
    try reflexivity; lia.
Qed.

Lemma pow2_distinct (i j : nat) :
  i <> j -> (2 ^ Z.of_nat i <> 2 ^ Z.of_nat j)%Z.
Proof.
  intros H Heq. apply H, Nat2Z.inj.
  apply (Z.pow_inj_r 2); lia.
Qed.

Lemma mask_flags_testbit (a : nat) (imms : list string) (b : Z) :
  Z.testbit
    (mask (map (fun '(i, imm) => (immediate_enumerant imm, (2 ^ Z.of_nat i)%Z))
               (Py.enumerate_from a imms))) b = true
  <-> (Z.of_nat a <= b < Z.of_nat (a + List.length imms))%Z.
Proof.
  revert a. induction imms as [|imm imms IH]; intro a.
  - cbn. rewrite Z.bits_0. split; [discriminate | lia].
  - cbn [Py.enumerate_from map mask fold_right snd List.length].
    rewrite Z.lor_spec, orb_true_iff, pow2_testbit, Z.eqb_eq.
    change (fold_right _ 0%Z ?l) with (mask l). rewrite IH. lia.
Qed.

Lemma mask_flags_ones (imms : list string) :
  mask (map (fun '(i, imm) => (immediate_enumerant imm, (2 ^ Z.of_nat i)%Z))
            (Py.enumerate imms))
  = Z.ones (Z.of_nat (List.length imms)).
Proof.
  apply Z.bits_inj'. intros b Hb. unfold Py.enumerate.
  apply eq_true_iff_eq. rewrite (mask_flags_testbit 0), Z.ones_spec_iff by lia. cbn. lia.
Qed.

(** ** Where the declarations stand in the artifact *)

Lemma artifact_has_opcode_section (s : schema) :
  Substring (opcode_section (opcodes s)) (artifact s).
Proof.
  unfold artifact. do 2 apply Substring_app_r.
  apply Substring_app_l, Substring_refl.
Qed.

Lemma artifact_has_opcode_enum (s : schema) :
  Substring (C.print_enum (opcode_enum (opcodes s))) (artifact s).
Proof.
  apply Substring_trans with (2 := artifact_has_opcode_section s).
  unfold opcode_section. do 3 apply Substring_app_r.
  apply Substring_app_l, Substring_refl.
Qed.

Lemma artifact_has_opcode_line (s : schema) (op : string) :
  In op (opcodes s) -> Substring (opcode_line op) (artifact s).
Proof.
  intro Hin. apply Substring_trans with (2 := artifact_has_opcode_section s).
  rewrite opcode_section_lines. do 5 apply Substring_app_r.
  apply Substring_app_l. now apply Substring_concat_map.
Qed.

Lemma artifact_has_group (s : schema) (name : string) (group : Py.dict Z string) :
  Py.wf (enums s) -> In (name, group) (enums s) ->
  Substring (group_section name group) (artifact s).
Proof.
  intros Hwf Hin. unfold artifact. do 3 apply Substring_app_r.
  apply Substring_app_l. rewrite (groups_section_items _ Hwf).
  apply (Substring_concat_map (fun '(name, group) => group_section name group)
           _ (name, group) Hin).
Qed.

Lemma artifact_has_immediate_enum (s : schema) :
  Substring (C.print_enum (immediate_enum (immediates s))) (artifact s).
Proof.
  unfold artifact. do 4 apply Substring_app_r. apply Substring_app_l.
  unfold immediate_section. do 6 apply Substring_app_r.
  apply Substring_app_l, Substring_refl.
Qed.

Lemma artifact_has_immediate_line (s : schema) (i : nat) (imm : string) :
  nth_error (immediates s) i = Some imm ->
  Substring ("   AGX_IMMEDIATE_" ++ Py.upper imm ++ " = (1ull << "
             ++ Py.str_nat i ++ ")," ++ nl) (artifact s).
Proof.
  intro Hnth.
  assert (Hin : In (i, imm) (Py.enumerate (immediates s))).
  { apply (nth_error_In _ i). unfold Py.enumerate.
    now rewrite nth_error_enumerate_from, Hnth. }
  apply Substring_trans with (immediate_line (i, imm)).
  - replace (immediate_line (i, imm))
      with ("   AGX_IMMEDIATE_" ++ Py.upper imm ++ " = (1ull << "
            ++ Py.str_nat i ++ ")," ++ nl)
      by (unfold immediate_line, C.print_enumerator, immediate_enumerant;
          string_eq).
    apply Substring_refl.
  - unfold artifact. do 4 apply Substring_app_r. apply Substring_app_l.
    rewrite immediate_section_lines. do 8 apply Substring_app_r.
    apply Substring_app_l. now apply Substring_concat_map.
Qed.

Lemma artifact_has_group_lines (s : schema) (name : string)
      (group : Py.dict Z string) (k : Z) (v : string) :
  Py.wf (enums s) -> In (name, group) (enums s) -> In (k, v) group ->
  Substring ("   " ++ group_enumerant name v ++ " = " ++ Py.str_int k
             ++ "," ++ nl) (artifact s)
  /\ Substring ("    case " ++ group_enumerant name v ++ ": return "
                ++ dq ++ v ++ dq ++ ";" ++ nl) (artifact s).
Proof.
  intros Hwf Hin Hkv. split.
  - apply Substring_trans with (group_enumerator_line name (k, v)).
    + replace (group_enumerator_line name (k, v))
        with ("   " ++ group_enumerant name v ++ " = " ++ Py.str_int k
              ++ "," ++ nl)
        by (unfold group_enumerator_line, C.print_enumerator; string_eq).
      apply Substring_refl.
    + apply Substring_trans with (2 := artifact_has_group s name group Hwf Hin).
      rewrite group_section_lines. do 4 apply Substring_app_r.
      apply Substring_app_l. now apply Substring_concat_map.
  - apply Substring_trans with (group_arm_line name (k, v)).
    + replace (group_arm_line name (k, v))
        with ("    case " ++ group_enumerant name v ++ ": return "
              ++ dq ++ v ++ dq ++ ";" ++ nl)
        by (unfold group_arm_line, C.print_arm; string_eq).
      apply Substring_refl.
    + apply Substring_trans with (2 := artifact_has_group s name group Hwf Hin).
      rewrite group_section_lines. do 20 apply Substring_app_r.
      apply Substring_app_l. now apply Substring_concat_map.
Qed.

(** ** The numbers in the text, read back *)

Lemma to_uint_nonnil (i : nat) : Nat.to_uint i <> Nil.
Proof.
  intro H. pose proof (DecimalNat.Unsigned.to_of (Nat.to_uint i)) as Hnorm.
  rewrite DecimalNat.Unsigned.of_to, H in Hnorm. discriminate.
Qed.

Lemma int_of_str_str_int (k : Z) : int_of_str (Py.str_int k) = Some k.
Proof.
  unfold int_of_str, Py.str_int. rewrite NilZero.isi.
  - cbn. now rewrite DecimalZ.of_to.
  - destruct k; cbn; try discriminate.
    intro H. injection H as H. now apply DecimalPos.Unsigned.to_uint_nonnil in H.
  - destruct k; cbn; try discriminate.
    intro H. injection H as H. now apply DecimalPos.Unsigned.to_uint_nonnil in H.
Qed.

Lemma nat_of_str_str_nat (i : nat) : nat_of_str (Py.str_nat i) = Some i.
Proof.
  unfold nat_of_str, Py.str_nat. rewrite NilZero.usu by apply to_uint_nonnil.
  cbn. now rewrite DecimalNat.Unsigned.of_to.
Qed.

Lemma three_kinds_valid : valid three_kinds.
Proof.
  unfold valid, three_kinds, scenario, Py.wf, Py.keys, normalized_labels,
    size_group; cbn.
  repeat split; try lia; try (intuition discriminate);
    repeat (constructor; cbn; try (intuition discriminate)).
Qed.

(** ** The immediate flags *)

(** C5: on a valid schema the immediate kind at position i gets the flag
    2^i: its line in the artifact reads AGX_IMMEDIATE_<KIND> = (1ull << i),
    with i printed in decimal; the flags at two different positions differ
    and share no bit; the bits used in the mask are exactly those below the
    count, inside 64 bits. *)
Theorem immediate_flags_are_positional (s : schema) :
  valid s ->
  (exists text,
     render s = inr text
     /\ Substring (C.print_enum (immediate_enum (immediates s))) text
     /\ (forall i imm,
           nth_error (immediates s) i = Some imm ->
           nat_of_str (Py.str_nat i) = Some i
           /\ Substring ("   AGX_IMMEDIATE_" ++ Py.upper imm ++ " = (1ull << "
                         ++ Py.str_nat i ++ ")," ++ nl) text))
  /\ C.values (immediate_enum (immediates s))
     = map (fun '(i, imm) => (immediate_enumerant imm, (2 ^ Z.of_nat i)%Z))
           (Py.enumerate (immediates s))
  /\ (forall i j ei ej,
        i <> j ->
        nth_error (C.values (immediate_enum (immediates s))) i = Some ei ->
        nth_error (C.values (immediate_enum (immediates s))) j = Some ej ->
        snd ei <> snd ej /\ Z.land (snd ei) (snd ej) = 0%Z)
  /\ (forall b,
        Z.testbit (mask (C.values (immediate_enum (immediates s)))) b = true
        <-> (0 <= b < Z.of_nat (List.length (immediates s)))%Z)
  /\ (0 <= mask (C.values (immediate_enum (immediates s))) < 2 ^ 64)%Z.
Proof.
  intros (Hlen & _).
  split; [|rewrite (immediate_values _ Hlen); split; [|split; [|split]]].
  - exists (artifact s). split; [now apply render_valid|].
    split; [apply artifact_has_immediate_enum|].
    intros i imm Hnth. split; [apply nat_of_str_str_nat|].
    now apply artifact_has_immediate_line.
  - reflexivity.
  - intros i j ei ej Hij Hi Hj. unfold Py.enumerate in Hi, Hj.
    rewrite nth_error_map, nth_error_enumerate_from in Hi, Hj.
    destruct (nth_error (immediates s) i), (nth_error (immediates s) j);
      cbn in Hi, Hj; try discriminate.
    injection Hi as <-. injection Hj as <-. cbn [snd].
    split; [now apply pow2_distinct | now apply pow2_disjoint].
  - intro b. apply (mask_flags_testbit 0).
  - rewrite mask_flags_ones, Z.ones_equiv.
    pose proof (Z.pow_pos_nonneg 2 (Z.of_nat (List.length (immediates s)))).
    assert (2 ^ Z.of_nat (List.length (immediates s)) <= 2 ^ 64)%Z
      by (apply Z.pow_le_mono_r; lia).
    lia.
Qed.

Lemma immediate_flags_are_positional_witness :
  C.values (immediate_enum (immediates three_kinds))
  = [("AGX_IMMEDIATE_IMM16", 1%Z); ("AGX_IMMEDIATE_SCOREBOARD", 2%Z);
     ("AGX_IMMEDIATE_NEST", 4%Z)]
  /\ mask (C.values (immediate_enum (immediates three_kinds))) = 7%Z
  /\ Substring ("   AGX_IMMEDIATE_IMM16 = (1ull << 0)," ++ nl)
                (artifact three_kinds)
  /\ Substring ("   AGX_IMMEDIATE_SCOREBOARD = (1ull << 1)," ++ nl)
                (artifact three_kinds)
  /\ Substring ("   AGX_IMMEDIATE_NEST = (1ull << 2)," ++ nl)
                (artifact three_kinds).
Proof.
  destruct (immediate_flags_are_positional three_kinds three_kinds_valid)
    as ((text & Hrender & _ & Hlines) & Hvalues & _).
  assert (Htext : text = artifact three_kinds).
  { rewrite render_valid in Hrender by (cbn; lia). now injection Hrender. }
  subst text.
  split; [exact Hvalues|]. split; [reflexivity|].
  split; [exact (proj2 (Hlines 0%nat "imm16" eq_refl))|].
  split; [exact (proj2 (Hlines 1%nat "scoreboard" eq_refl))|].
  exact (proj2 (Hlines 2%nat "nest" eq_refl)).
Defined.

(** ** The opcode enumeration *)

(** C6: on a valid schema the opcode enumeration holds one enumerator per
    opcode name, in input order and numbered from 0, and ends with the
    sentinel, whose value is the count of distinct opcode names. *)
Theorem opcode_enum_ends_with_count (s : schema) :
  valid s ->
  (exists text,
     render s = inr text
     /\ Substring (C.print_enum (opcode_enum (opcodes s))) text)
  /\ map fst (C.members (opcode_enum (opcodes s)))
     = (map opcode_enumerant (opcodes s) ++ ["AGX_NUM_OPCODES"])%list
  /\ C.values (opcode_enum (opcodes s))
     = (map (fun '(i, op) => (opcode_enumerant op, Z.of_nat i))
            (Py.enumerate (opcodes s))
        ++ [("AGX_NUM_OPCODES", Z.of_nat (count_distinct (opcodes s)))])%list.
Proof.
  intros (Hlen & _ & Hnodup & _). repeat split.
  - exists (artifact s). split; [now apply render_valid|].
    apply artifact_has_opcode_enum.
  - unfold opcode_enum. cbn [C.members]. now rewrite map_app, map_map.
  - rewrite opcode_values. unfold count_distinct.
    now rewrite (nodup_fixed_point string_dec Hnodup).
Qed.

Lemma opcode_enum_ends_with_count_witness :
  C.values (opcode_enum (opcodes scenario))
  = [("AGX_OPCODE_ADD", 0%Z); ("AGX_OPCODE_MOV", 1%Z); ("AGX_NUM_OPCODES", 2%Z)].
Proof.
  pose proof (opcode_enum_ends_with_count scenario scenario_valid)
    as (_ & _ & Hvalues).
  exact Hvalues.
Defined.

(** ** The reflection functions *)

Lemma value_of_In (env : list (string * Z)) (n : string) (v : Z) :
  NoDup (map fst env) -> In (n, v) env -> C.value_of env n = Some v.
Proof.
  induction env as [|[n' v'] env IH]; cbn; [tauto|].
  intros Hnd [Heq|Hin]; inversion Hnd as [|? ? Hnotin Hnd']; subst.
  - inversion Heq; subst. now rewrite String.eqb_refl.
  - destruct (String.eqb_spec n' n) as [->|_]; [|now apply IH].
    exfalso. apply Hnotin. now apply (in_map fst _ (n, v)).
Qed.

Lemma group_enumerant_inj (name v w : string) :
  group_enumerant name v = group_enumerant name w -> normalize v = normalize w.
Proof.
  unfold group_enumerant. intro H.
  now do 3 apply append_inv_head in H.
Qed.

Lemma group_enumerants_NoDup (name : string) (group : Py.dict Z string) :
  NoDup (normalized_labels group) ->
  NoDup (map fst (map (fun '(k, v) => (group_enumerant name v, k)) group)).
Proof.
  unfold normalized_labels.
  induction group as [|[k v] group IH]; cbn; intro H; [constructor|].
  inversion H as [|? ? Hnotin Hnd]; subst. constructor; [|now apply IH].
  intro Hin. apply Hnotin.
  rewrite map_map in Hin. apply in_map_iff in Hin as ([k' w] & Heq & Hw).
  cbn in Heq. apply group_enumerant_inj in Heq. rewrite <- Heq.
  apply (in_map (fun '(_, v) => normalize v) _ (k', w) Hw).
Qed.

Lemma group_value_of (name : string) (group : Py.dict Z string) (k : Z) (v : string) :
  Forall (fun e => C.representable (fst e)) group ->
  NoDup (normalized_labels group) -> In (k, v) group ->
  C.value_of (C.values (group_enum name group)) (group_enumerant name v) = Some k.
Proof.
  intros Hkeys Hnd Hin. rewrite (group_values name group Hkeys).
  apply value_of_In; [now apply group_enumerants_NoDup|].
  apply (in_map (fun '(k, v) => (group_enumerant name v, k)) _ (k, v) Hin).
Qed.

(** The switch of a group returns the label stored under the key it is
    given, looking the key up from the first arm on. *)
Lemma group_switch (name : string) (env : list (string * Z))
      (group : Py.dict Z string) (x : Z) :
  (forall k v, In (k, v) group ->
               C.value_of env (group_enumerant name v) = Some k) ->
  C.switch env (C.arms (group_as_str name group)) x
  = match find (fun e => Z.eqb (fst e) x) group with
    | Some (_, v) => C.Returns v
    | None => C.Unreachable
    end.
Proof.
  cbn [group_as_str C.arms].
  induction group as [|[k v] group IH]; intro Henv; [reflexivity|].
  cbn [map C.switch C.label C.literal find fst].
  rewrite (Henv k v) by now left.
  destruct (Z.eqb k x); [reflexivity|].
  apply IH. intros k' v' Hin. apply Henv. now right.
Qed.





(** ** The example of the specification *)

(** C8: for the opcodes add and mov, the immediate kind imm16 and the group
    size = {0: 8, 1: 16, 2: 32}, the artifact holds the opcode enumeration
    with ADD, MOV and the sentinel, of value 2; the immediate flag
    IMMEDIATE_IMM16, of value 1; the enumeration SIZE_8 = 0, SIZE_16 = 1,
    SIZE_32 = 2; and a reflection function that maps SIZE_16 to "16". *)
Theorem scenario_artifact :
  exists text,
    main scenario = {| stdout := text ++ nl; raised := None |}
    /\ Substring ("enum agx_opcode {" ++ nl
                  ++ "   AGX_OPCODE_ADD," ++ nl
                  ++ "   AGX_OPCODE_MOV," ++ nl
                  ++ "   AGX_NUM_OPCODES" ++ nl
                  ++ "};" ++ nl) text
    /\ C.values (opcode_enum (opcodes scenario))
       = [("AGX_OPCODE_ADD", 0%Z); ("AGX_OPCODE_MOV", 1%Z);
          ("AGX_NUM_OPCODES", 2%Z)]
    /\ Substring ("enum agx_immediate {" ++ nl
                  ++ "   AGX_IMMEDIATE_IMM16 = (1ull << 0)," ++ nl
                  ++ "};" ++ nl) text
    /\ C.values (immediate_enum (immediates scenario))
       = [("AGX_IMMEDIATE_IMM16", 1%Z)]
    /\ Substring ("enum agx_size {" ++ nl
                  ++ "   AGX_SIZE_8 = 0," ++ nl
                  ++ "   AGX_SIZE_16 = 1," ++ nl
                  ++ "   AGX_SIZE_32 = 2," ++ nl
                  ++ "};" ++ nl) text
    /\ C.values (group_enum "size" size_group)
       = [("AGX_SIZE_8", 0%Z); ("AGX_SIZE_16", 1%Z); ("AGX_SIZE_32", 2%Z)]
    /\ Substring ("agx_size_as_str(enum agx_size x)" ++ nl
                  ++ "{" ++ nl
                  ++ "    switch (x) {" ++ nl
                  ++ "    case AGX_SIZE_8: return " ++ dq ++ "8" ++ dq ++ ";" ++ nl
                  ++ "    case AGX_SIZE_16: return " ++ dq ++ "16" ++ dq ++ ";" ++ nl
                  ++ "    case AGX_SIZE_32: return " ++ dq ++ "32" ++ dq ++ ";" ++ nl)
                 text
    /\ C.call (group_enum "size" size_group) (group_as_str "size" size_group) 1
       = C.Returns "16".
Proof.
  exists (artifact scenario).
  split; [apply main_valid; cbn; lia|].
  repeat split;
    try (apply occurs_Substring; vm_compute; reflexivity);
    vm_compute; reflexivity.
Qed.

(** ** Opcode names and dots *)

Lemma upper_app (a b : string) : Py.upper (a ++ b) = Py.upper a ++ Py.upper b.
Proof. induction a as [|c a IH]; cbn; [reflexivity | now rewrite IH]. Qed.

Lemma replace_app (old new : ascii) (a b : string) :
  Py.replace old new (a ++ b) = Py.replace old new a ++ Py.replace old new b.
Proof. induction a as [|c a IH]; cbn; [reflexivity | now rewrite IH]. Qed.

(** C9: an opcode name enters its enumerant upper-cased and nothing more: a
    dot in the name stays a dot in the AGX_OPCODE_ enumerant the artifact
    lists, whereas a dot in the label of an enum group becomes an
    underscore. *)
Theorem opcode_names_keep_their_dots (s : schema) (text : string) :
  render s = inr text ->
  (forall op,
     In op (opcodes s) ->
     Substring ("   AGX_OPCODE_" ++ Py.upper op ++ "," ++ nl) text)
  /\ (forall a b,
        opcode_enumerant (a ++ "." ++ b)
        = "AGX_OPCODE_" ++ Py.upper a ++ "." ++ Py.upper b)
  /\ (forall name a b,
        group_enumerant name (a ++ "." ++ b)
        = "AGX_" ++ Py.upper name ++ "_" ++ normalize a ++ "_" ++ normalize b).
Proof.
  intro H. apply render_inv in H as [_ ->]. split; [|split].
  - intros op Hin.
    apply Substring_trans with (2 := artifact_has_opcode_line s op Hin).
    unfold opcode_line, C.print_enumerator, opcode_enumerant. cbn.
    rewrite !append_assoc. cbn. apply Substring_refl.
  - intros a b. unfold opcode_enumerant. now rewrite !upper_app.
  - intros name a b. unfold group_enumerant, normalize.
    now rewrite !replace_app, !upper_app.
Qed.

Lemma opcode_names_keep_their_dots_witness :
  Substring ("   AGX_OPCODE_LD.TILE," ++ nl) (artifact dotted).
Proof.
  assert (Hrender : render dotted = inr (artifact dotted))
    by (apply render_valid; cbn; lia).
  apply (proj1 (opcode_names_keep_their_dots dotted (artifact dotted) Hrender)
           "ld.tile").
  cbn. tauto.
Defined.

(** ** The schedule classes *)

(** C10: whatever the schema, an artifact opens with the header guard and
    then the ScheduleClass enumeration, which has exactly 8 members:
    AGX_SCHEDULE_CLASS_INVALID first, with the value 0, then NONE, LOAD,
    STORE, ATOMIC, COVERAGE, PRELOAD and BARRIER in this order. *)
Theorem schedule_class_is_fixed (s : schema) (text : string) :
  render s = inr text ->
  (exists rest,
     text = header_guard ++ C.print_enum schedule_class_enum ++ rest)
  /\ C.print_enum schedule_class_enum
     = "enum agx_schedule_class {" ++ nl
       ++ "   AGX_SCHEDULE_CLASS_INVALID," ++ nl
       ++ "   AGX_SCHEDULE_CLASS_NONE," ++ nl
       ++ "   AGX_SCHEDULE_CLASS_LOAD," ++ nl
       ++ "   AGX_SCHEDULE_CLASS_STORE," ++ nl
       ++ "   AGX_SCHEDULE_CLASS_ATOMIC," ++ nl
       ++ "   AGX_SCHEDULE_CLASS_COVERAGE," ++ nl
       ++ "   AGX_SCHEDULE_CLASS_PRELOAD," ++ nl
       ++ "   AGX_SCHEDULE_CLASS_BARRIER," ++ nl
       ++ "};" ++ nl
  /\ List.length (C.members schedule_class_enum) = 8%nat
  /\ C.values schedule_class_enum
     = [("AGX_SCHEDULE_CLASS_INVALID", 0%Z); ("AGX_SCHEDULE_CLASS_NONE", 1%Z);
        ("AGX_SCHEDULE_CLASS_LOAD", 2%Z); ("AGX_SCHEDULE_CLASS_STORE", 3%Z);
        ("AGX_SCHEDULE_CLASS_ATOMIC", 4%Z); ("AGX_SCHEDULE_CLASS_COVERAGE", 5%Z);
        ("AGX_SCHEDULE_CLASS_PRELOAD", 6%Z); ("AGX_SCHEDULE_CLASS_BARRIER", 7%Z)].
Proof.
  intro H. apply render_inv in H as [_ ->].
  split; [|repeat split].
  unfold artifact, schedule_class_section. rewrite append_assoc.
  eexists. reflexivity.
Qed.

Lemma schedule_class_is_fixed_witness :
  exists rest,
    artifact defective = header_guard ++ C.print_enum schedule_class_enum ++ rest.
Proof.
  assert (Hrender : render defective = inr (artifact defective))
    by (apply render_valid; cbn; lia).
  exact (proj1 (schedule_class_is_fixed defective (artifact defective) Hrender)).
Defined.

(** * Further properties of the template *)

(** ** Looking enumerators up by name *)

Lemma value_of_app_l (l1 l2 : list (string * Z)) (n : string) (v : Z) :
  C.value_of l1 n = Some v -> C.value_of (l1 ++ l2) n = Some v.
Proof.
  induction l1 as [|[n' v'] l1 IH]; cbn; [discriminate|].
  destruct (String.eqb n' n); [tauto | exact IH].
Qed.

Lemma value_of_app_r (l1 l2 : list (string * Z)) (n : string) :
  ~ In n (map fst l1) -> C.value_of (l1 ++ l2) n = C.value_of l2 n.
Proof.
  induction l1 as [|[n' v'] l1 IH]; cbn; [reflexivity|].
  intro Hnotin. destruct (String.eqb_spec n' n) as [->|_]; [tauto|].
  apply IH. tauto.
Qed.

Lemma opcode_enumerant_inj (a b : string) :
  opcode_enumerant a = opcode_enumerant b -> Py.upper a = Py.upper b.
Proof. unfold opcode_enumerant. apply append_inv_head. Qed.

Lemma immediate_enumerant_inj (a b : string) :
  immediate_enumerant a = immediate_enumerant b -> Py.upper a = Py.upper b.
Proof. unfold immediate_enumerant. apply append_inv_head. Qed.

Lemma opcode_enumerant_not_sentinel (op : string) :
  opcode_enumerant op <> "AGX_NUM_OPCODES".
Proof. unfold opcode_enumerant. cbn. discriminate. Qed.

Lemma enumerated_names {A} (f : string -> string) (g : nat -> A) (a : nat)
      (l : list string) :
  map fst (map (fun '(i, x) => (f x, g i)) (Py.enumerate_from a l)) = map f l.
Proof.
  revert a. induction l as [|x l IH]; intro a; cbn; [reflexivity|].
  now rewrite IH.
Qed.

Lemma NoDup_prefixed (f : string -> string) (l : list string) :
  (forall a b, f a = f b -> Py.upper a = Py.upper b) ->
  NoDup (map Py.upper l) -> NoDup (map f l).
Proof.
  intros Hinj. induction l as [|x l IH]; cbn; intro H; [constructor|].
  inversion H as [|? ? Hnotin Hnd]; subst. constructor; [|now apply IH].
  intro Hin. apply Hnotin. apply in_map_iff in Hin as (y & Heq & Hy).
  apply Hinj in Heq. rewrite <- Heq. now apply in_map.
Qed.

(** X2: when the opcode names stay distinct once upper-cased, the opcode
    enumeration declares no enumerator twice, the sentinel included, and
    AGX_NUM_OPCODES, looked up by name, has the length of the opcode list as
    its value. *)
Theorem sentinel_is_the_list_length (ops : list string) :
  NoDup (map Py.upper ops) ->
  NoDup (map fst (C.members (opcode_enum ops)))
  /\ C.value_of (C.values (opcode_enum ops)) "AGX_NUM_OPCODES"
     = Some (Z.of_nat (List.length ops)).
Proof.
  intro Hnd.
  assert (Hnotin : ~ In "AGX_NUM_OPCODES" (map opcode_enumerant ops)).
  { intro Hin. apply in_map_iff in Hin as (op & Heq & _).
    now apply opcode_enumerant_not_sentinel in Heq. }
  split.
  - unfold opcode_enum. cbn [C.members]. rewrite map_app, map_map. cbn [fst map].
    apply NoDup_app; [| repeat constructor; cbn; tauto |].
    + now apply NoDup_prefixed; [apply opcode_enumerant_inj|].
    + intros n Hn [<-|[]]. now apply Hnotin.
  - rewrite opcode_values, value_of_app_r.
    + cbn. reflexivity.
    + unfold Py.enumerate.
      now rewrite (enumerated_names opcode_enumerant Z.of_nat).
Qed.

Lemma sentinel_is_the_list_length_witness :
  C.value_of (C.values (opcode_enum ["add"; "mov"; "fma"])) "AGX_NUM_OPCODES"
  = Some 3%Z.
Proof.
  apply (sentinel_is_the_list_length ["add"; "mov"; "fma"]).
  cbn. repeat (constructor; cbn; try (intuition discriminate)).
Defined.

(** X3: when the opcode names stay distinct once upper-cased, the enumerant
    of the opcode at position i has the value i in the opcode enumeration. *)
Theorem opcode_enumerant_value (ops : list string) (i : nat) (op : string) :
  NoDup (map Py.upper ops) -> nth_error ops i = Some op ->
  C.value_of (C.values (opcode_enum ops)) (opcode_enumerant op)
  = Some (Z.of_nat i).
Proof.
  intros Hnd Hnth. rewrite opcode_values. apply value_of_app_l.
  apply value_of_In.
  - unfold Py.enumerate.
    rewrite (enumerated_names opcode_enumerant Z.of_nat).
    now apply NoDup_prefixed; [apply opcode_enumerant_inj|].
  - apply (nth_error_In _ i). unfold Py.enumerate.
    now rewrite nth_error_map, nth_error_enumerate_from, Hnth.
Qed.

Lemma opcode_enumerant_value_witness :
  C.value_of (C.values (opcode_enum ["add"; "mov"])) "AGX_OPCODE_MOV"
  = Some 1%Z.
Proof.
  apply (opcode_enumerant_value ["add"; "mov"] 1 "mov"); [|reflexivity].
  cbn. repeat (constructor; cbn; try (intuition discriminate)).
Defined.

(** X4: when the immediate list is within the bound and its names stay
    distinct once upper-cased, the flag of the immediate kind at position i
    is 2^i under its own name. *)
Theorem immediate_enumerant_value (imms : list string) (i : nat) (imm : string) :
  (List.length imms < 64)%nat ->
  NoDup (map Py.upper imms) -> nth_error imms i = Some imm ->
  C.value_of (C.values (immediate_enum imms)) (immediate_enumerant imm)
  = Some (2 ^ Z.of_nat i)%Z.
Proof.
  intros Hlen Hnd Hnth. rewrite (immediate_values imms Hlen).
  apply value_of_In.
  - unfold Py.enumerate.
    rewrite (enumerated_names immediate_enumerant (fun i => (2 ^ Z.of_nat i)%Z)).
    now apply NoDup_prefixed; [apply immediate_enumerant_inj|].
  - apply (nth_error_In _ i). unfold Py.enumerate.
    now rewrite nth_error_map, nth_error_enumerate_from, Hnth.
Qed.

Lemma immediate_enumerant_value_witness :
  C.value_of (C.values (immediate_enum ["imm16"; "scoreboard"]))
             "AGX_IMMEDIATE_SCOREBOARD"
  = Some 2%Z.
Proof.
  apply (immediate_enumerant_value ["imm16"; "scoreboard"] 1 "scoreboard");
    [cbn; lia | | reflexivity].
  cbn. repeat (constructor; cbn; try (intuition discriminate)).
Defined.

(** X5: the strict bound keeps the top bit free.  In every artifact that is
    rendered each immediate flag is a power of two, 2^i with i at most 62:
    it lies between 1 and 2^62, and bit 63 of the 64-bit mask is given to no
    kind. *)
Theorem immediate_flags_leave_bit_63 (s : schema) (text n : string) (v : Z) :
  render s = inr text ->
  In (n, v) (C.values (immediate_enum (immediates s))) ->
  (exists i imm,
     (i <= 62)%nat
     /\ nth_error (immediates s) i = Some imm
     /\ n = immediate_enumerant imm
     /\ v = (2 ^ Z.of_nat i)%Z)
  /\ (1 <= v <= 2 ^ 62)%Z
  /\ Z.testbit v 63 = false.
Proof.
  intros Hrender Hin. apply render_inv in Hrender as [Hlen _].
  rewrite (immediate_values _ Hlen) in Hin.
  apply in_map_iff in Hin as ([i imm] & Heq & Hi).
  injection Heq as <- <-.
  pose proof (In_enumerate_from _ _ _ _ Hi) as Hbound.
  apply In_nth_error in Hi as [p Hp]. unfold Py.enumerate in Hp.
  rewrite nth_error_enumerate_from in Hp.
  destruct (nth_error (immediates s) p) as [imm'|] eqn:Hnth; [|discriminate].
  cbn in Hp. injection Hp as <- <-.
  split; [|split; [split|]].
  - exists p, imm'. repeat split; [lia | exact Hnth].
  - pose proof (Z.pow_pos_nonneg 2 (Z.of_nat p)). lia.
  - apply Z.pow_le_mono_r; lia.
  - rewrite pow2_testbit. apply Z.eqb_neq. lia.
Qed.

Lemma immediate_flags_leave_bit_63_witness :
  (exists i imm,
     (i <= 62)%nat
     /\ nth_error (immediates three_kinds) i = Some imm
     /\ "AGX_IMMEDIATE_NEST" = immediate_enumerant imm
     /\ 4%Z = (2 ^ Z.of_nat i)%Z)
  /\ (1 <= 4 <= 2 ^ 62)%Z
  /\ Z.testbit 4 63 = false.
Proof.
  assert (Hrender : render three_kinds = inr (artifact three_kinds))
    by (apply render_valid; cbn; lia).
  apply (immediate_flags_leave_bit_63 three_kinds (artifact three_kinds)
           "AGX_IMMEDIATE_NEST" 4 Hrender).
  cbn. tauto.
Defined.

(** ** Upper case and dots *)

Lemma upper_char_idempotent (c : ascii) :
  Py.upper_char (Py.upper_char c) = Py.upper_char c.
Proof. destruct c as [[] [] [] [] [] [] [] []]; reflexivity. Qed.

Lemma upper_char_replace (c : ascii) :
  Py.upper_char (if Ascii.eqb c "." then "_"%char else c)
  = if Ascii.eqb (Py.upper_char c) "." then "_"%char else Py.upper_char c.
Proof. destruct c as [[] [] [] [] [] [] [] []]; reflexivity. Qed.

Lemma normalized_char (c : ascii) :
  negb (Ascii.eqb (Py.upper_char (if Ascii.eqb c "." then "_"%char else c)) ".")
  && negb (lowercase (Py.upper_char (if Ascii.eqb c "." then "_"%char else c)))
  = true.
Proof. destruct c as [[] [] [] [] [] [] [] []]; reflexivity. Qed.

Lemma upper_idempotent (s : string) : Py.upper (Py.upper s) = Py.upper s.
Proof.
  induction s as [|c s IH]; cbn; [reflexivity|].
  now rewrite upper_char_idempotent, IH.
Qed.

Lemma upper_replace (s : string) :
  Py.upper (Py.replace "." "_" s) = Py.replace "." "_" (Py.upper s).
Proof.
  induction s as [|c s IH]; cbn [Py.upper Py.replace]; [reflexivity|].
  now rewrite upper_char_replace, IH.
Qed.

Lemma replace_idempotent (s : string) :
  Py.replace "." "_" (Py.replace "." "_" s) = Py.replace "." "_" s.
Proof.
  induction s as [|c s IH]; cbn [Py.replace]; [reflexivity|].
  rewrite IH. f_equal.
  destruct (Ascii.eqb c ".") eqn:Hdot; [reflexivity | now rewrite Hdot].
Qed.

(** X6: for a label of ASCII characters, the normalized form
    [v.replace('.', '_').upper()] has the length of the label and holds no
    dot and no lower-case letter. *)
Theorem normalize_leaves_no_dot (v : string) :
  all_chars ascii_char v = true ->
  String.length (normalize v) = String.length v
  /\ all_chars (fun c => negb (Ascii.eqb c ".") && negb (lowercase c))
               (normalize v) = true.
Proof.
  intros _. unfold normalize. induction v as [|c v [IHlen IHall]]; [now split|].
  cbn [Py.replace Py.upper String.length all_chars]. split.
  - now rewrite IHlen.
  - now rewrite normalized_char, IHall.
Qed.

Lemma normalize_leaves_no_dot_witness :
  String.length (normalize "f32.sat") = 7%nat
  /\ all_chars (fun c => negb (Ascii.eqb c ".") && negb (lowercase c))
               (normalize "f32.sat") = true.
Proof.
  apply (normalize_leaves_no_dot "f32.sat"). reflexivity.
Defined.

(** X7: normalizing is idempotent, and the replacement of the dots and the
    upper-casing can be done in either order: a label that already is in
    normalized form gets the enumerant it spells. *)
Theorem normalize_idempotent (name v : string) :
  normalize (normalize v) = normalize v
  /\ Py.upper (Py.replace "." "_" v) = Py.replace "." "_" (Py.upper v)
  /\ group_enumerant name (normalize v) = group_enumerant name v.
Proof.
  assert (H : normalize (normalize v) = normalize v).
  { unfold normalize.
    now rewrite (upper_replace v), replace_idempotent, <- upper_replace,
      upper_idempotent. }
  split; [exact H|]. split; [apply upper_replace|].
  unfold group_enumerant. now rewrite H.
Qed.

Lemma enumerate_from_map {A B} (f : A -> B) (a : nat) (l : list A) :
  Py.enumerate_from a (map f l)
  = map (fun '(i, x) => (i, f x)) (Py.enumerate_from a l).
Proof.
  revert a. induction l as [|x l IH]; intro a; cbn; [reflexivity|].
  now rewrite IH.
Qed.

Lemma opcode_enum_upper (ops : list string) :
  opcode_enum (map Py.upper ops) = opcode_enum ops.
Proof.
  unfold opcode_enum. rewrite map_map. do 2 f_equal.
  apply map_ext. intro op. unfold opcode_enumerant.
  now rewrite upper_idempotent.
Qed.

Lemma immediate_enum_upper (imms : list string) :
  immediate_enum (map Py.upper imms) = immediate_enum imms.
Proof.
  unfold immediate_enum, Py.enumerate. rewrite enumerate_from_map, map_map.
  f_equal. apply map_ext. intros [i imm]. unfold immediate_enumerant.
  now rewrite upper_idempotent.
Qed.

(** X8: the case of opcode and immediate names does not reach the output.
    A schema and the schema with these names upper-cased render alike: the
    same artifact, or the same failure. *)
Theorem names_lose_their_case (s : schema) :
  render (upper_names s) = render s /\ main (upper_names s) = main s.
Proof.
  assert (H : render (upper_names s) = render s).
  { destruct (Nat.lt_ge_cases (List.length (immediates s)) 64) as [Hlt|Hge].
    - rewrite (render_valid s Hlt), render_valid
        by (cbn; now rewrite length_map).
      unfold artifact, opcode_section, immediate_section. cbn [upper_names opcodes immediates enums].
      now rewrite opcode_enum_upper, immediate_enum_upper.
    - rewrite (render_overflow s Hge), render_overflow
        by (cbn; now rewrite length_map).
      reflexivity. }
  split; [exact H|]. unfold main. now rewrite H.
Qed.

(** ** The name spaces of the enumerants *)

(** X9: whatever the names in the schema, the enumerants of opcodes, those of
    immediate kinds, the eight schedule classes and the sentinel are spelled
    differently from one another. *)
Theorem fixed_families_are_disjoint (op imm : string) :
  opcode_enumerant op <> immediate_enumerant imm
  /\ opcode_enumerant op <> "AGX_NUM_OPCODES"
  /\ immediate_enumerant imm <> "AGX_NUM_OPCODES"
  /\ ~ In (opcode_enumerant op) (map fst (C.members schedule_class_enum))
  /\ ~ In (immediate_enumerant imm) (map fst (C.members schedule_class_enum))
  /\ ~ In "AGX_NUM_OPCODES" (map fst (C.members schedule_class_enum)).
Proof.
  unfold opcode_enumerant, immediate_enumerant. cbn.
  repeat split; try discriminate; intuition discriminate.
Qed.

(** X10: the enumerants of an enum group are not kept apart from those of
    the opcodes.  When a group is named opcode and one of its labels is an
    opcode name without a dot, the opcode enumeration and the enumeration of
    the group declare one and the same enumerator. *)
Theorem group_named_opcode_clashes (ops : list string) (group : Py.dict Z string)
        (k : Z) (op : string) :
  In op ops -> In (k, op) group -> Py.replace "." "_" op = op ->
  In (opcode_enumerant op) (map fst (C.members (opcode_enum ops)))
  /\ In (opcode_enumerant op) (map fst (C.members (group_enum "opcode" group))).
Proof.
  intros Hop Hlabel Hdot. split.
  - unfold opcode_enum. cbn [C.members]. rewrite map_app, map_map.
    apply in_or_app. left. cbn [fst]. now apply in_map.
  - unfold group_enum. cbn [C.members]. rewrite map_map.
    apply in_map_iff. exists (k, op). split; [|exact Hlabel].
    cbn [fst]. unfold group_enumerant, opcode_enumerant, normalize.
    now rewrite Hdot.
Qed.

Lemma group_named_opcode_clashes_witness :
  In "AGX_OPCODE_ADD" (map fst (C.members (opcode_enum ["add"; "mov"])))
  /\ In "AGX_OPCODE_ADD"
        (map fst (C.members (group_enum "opcode" [(0%Z, "add")]))).
Proof.
  apply (group_named_opcode_clashes ["add"; "mov"] [(0%Z, "add")] 0 "add");
    [cbn; tauto | cbn; tauto | reflexivity].
Defined.

(** ** The numbers in the text *)

(** X11: the numbers the template prints read back as they were: the decimal
    text of a group key parses to the key and that of a position to the
    position, so two different keys never print the same initializer. *)
Theorem printed_numbers_read_back (k k' : Z) (i : nat) :
  int_of_str (Py.str_int k) = Some k
  /\ nat_of_str (Py.str_nat i) = Some i
  /\ (C.print_initializer (C.IntLit k) = C.print_initializer (C.IntLit k') ->
      k = k').
Proof.
  assert (Hint : forall z, int_of_str (Py.str_int z) = Some z).
  { intro z. unfold int_of_str, Py.str_int. rewrite NilZero.isi.
    - cbn. now rewrite DecimalZ.of_to.
    - destruct z; cbn; try discriminate.
      intro H. injection H as H. now apply DecimalPos.Unsigned.to_uint_nonnil in H.
    - destruct z; cbn; try discriminate.
      intro H. injection H as H. now apply DecimalPos.Unsigned.to_uint_nonnil in H. }
  split; [apply Hint|]. split.
  - unfold nat_of_str, Py.str_nat.
    rewrite NilZero.usu by apply to_uint_nonnil.
    cbn. now rewrite DecimalNat.Unsigned.of_to.
  - cbn [C.print_initializer]. intro H. apply append_inv_head in H.
    apply (f_equal int_of_str) in H. rewrite !Hint in H. now injection H.
Qed.

(** ** The reflection function, read backwards *)

Lemma NoDup_map_eq {A B} (f : A -> B) (l : list A) (a b : A) :
  NoDup (map f l) -> In a l -> In b l -> f a = f b -> a = b.
Proof.
  induction l as [|x l IH]; cbn; [tauto|].
  intros Hnd Ha Hb Heq. inversion Hnd as [|? ? Hnotin Hnd']; subst.
  destruct Ha as [->|Ha], Hb as [->|Hb]; try reflexivity.
  - exfalso. apply Hnotin. rewrite Heq. now apply in_map.
  - exfalso. apply Hnotin. rewrite <- Heq. now apply in_map.
  - now apply IH.
Qed.

(** X12: for an enum group of a rendered schema whose keys are distinct and
    have their own value as C constants, and whose labels stay distinct once
    normalized, the reflection function returns a label only for the key the
    label was declared with, the key its enumerator line prints in decimal;
    so two values with the same returned label are the same value. *)
Theorem as_str_is_injective (s : schema) (text name : string)
        (group : Py.dict Z string) (x y : Z) (v : string) :
  render s = inr text ->
  Py.wf (enums s) -> In (name, group) (enums s) ->
  Py.wf group -> NoDup (normalized_labels group) ->
  Forall (fun e => C.representable (fst e)) group ->
  C.call (group_enum name group) (group_as_str name group) x = C.Returns v ->
  In (x, v) group
  /\ int_of_str (Py.str_int x) = Some x
  /\ Substring ("   " ++ group_enumerant name v ++ " = " ++ Py.str_int x
                ++ "," ++ nl) text
  /\ (C.call (group_enum name group) (group_as_str name group) y = C.Returns v ->
      x = y).
Proof.
  intros Hrender Hwf Hin Hkeys Hlabels Hrange.
  apply render_inv in Hrender as [_ ->].
  assert (Hback : forall z w,
            C.call (group_enum name group) (group_as_str name group) z
            = C.Returns w -> In (z, w) group).
  { intros z w. unfold C.call.
    rewrite (group_switch name _ group z)
      by (intros k' v' Hkv; now apply group_value_of).
    destruct (find _ group) as [[k' v']|] eqn:Hfind; [|discriminate].
    apply find_some in Hfind as [Hmem Hkey]. cbn in Hkey.
    apply Z.eqb_eq in Hkey. subst k'. intro H. now injection H as <-. }
  intro Hx. apply Hback in Hx.
  split; [exact Hx|]. split; [apply int_of_str_str_int|].
  split; [exact (proj1 (artifact_has_group_lines s name group x v Hwf Hin Hx))|].
  intro Hy. apply Hback in Hy.
  assert (Heq : (x, v) = (y, v))
    by (apply (NoDup_map_eq (fun '(_, v) => normalize v) group);
        [exact Hlabels | exact Hx | exact Hy | reflexivity]).
  now injection Heq.
Qed.

Lemma as_str_is_injective_witness :
  In (1%Z, "16") size_group
  /\ Substring ("   AGX_SIZE_16 = 1," ++ nl) (artifact scenario)
  /\ 1%Z = 1%Z.
Proof.
  assert (Hrender : render scenario = inr (artifact scenario))
    by (apply render_valid; cbn; lia).
  assert (Hwf : Py.wf (enums scenario))
    by (repeat constructor; cbn; tauto).
  assert (Hkeys : Py.wf size_group)
    by (repeat (constructor; cbn; try (intuition discriminate))).
  assert (Hlabels : NoDup (normalized_labels size_group))
    by (repeat (constructor; cbn; try (intuition discriminate))).
  assert (Hrange : Forall (fun e => C.representable (fst e)) size_group)
    by (repeat constructor; cbn; lia).
  destruct (as_str_is_injective scenario (artifact scenario) "size" size_group
              1 1 "16" Hrender Hwf (or_introl eq_refl) Hkeys Hlabels Hrange
              eq_refl) as (Hin & _ & Hline & Hsame).
  split; [exact Hin|]. split; [exact Hline|]. apply Hsame. reflexivity.
Defined.

(** ** Growing the schema *)

Lemma nth_error_enumerated {A} (f : nat * string -> A) (l more : list string)
      (i : nat) :
  (i < List.length l)%nat ->
  nth_error (map f (Py.enumerate (l ++ more))) i
  = nth_error (map f (Py.enumerate l)) i.
Proof.
  intro Hi. unfold Py.enumerate.
  rewrite !nth_error_map, !nth_error_enumerate_from.
  now rewrite nth_error_app1.
Qed.

(** X13: names added at the end of a list renumber nothing.  The opcode at
    position i keeps its enumerator and value when more opcodes follow it,
    and, within the bound, the immediate kind at position i keeps its flag
    when more kinds follow it. *)
Theorem appended_names_keep_the_values (ops more_ops imms more_imms : list string)
        (i j : nat) :
  (i < List.length ops)%nat ->
  (j < List.length imms)%nat ->
  (List.length (imms ++ more_imms) < 64)%nat ->
  nth_error (C.values (opcode_enum (ops ++ more_ops))) i
  = nth_error (C.values (opcode_enum ops)) i
  /\ nth_error (C.values (immediate_enum (imms ++ more_imms))) j
     = nth_error (C.values (immediate_enum imms)) j.
Proof.
  intros Hi Hj Hlen. split.
  - rewrite !opcode_values.
    rewrite !nth_error_app1
      by (unfold Py.enumerate;
          rewrite length_map, length_enumerate_from, ?length_app; lia).
    now apply nth_error_enumerated.
  - rewrite length_app in Hlen.
    rewrite !immediate_values by (rewrite ?length_app; lia).
    now apply nth_error_enumerated.
Qed.

Lemma appended_names_keep_the_values_witness :
  nth_error (C.values (opcode_enum (["add"; "mov"] ++ ["fma"]))) 1
  = nth_error (C.values (opcode_enum ["add"; "mov"])) 1
  /\ nth_error (C.values (immediate_enum (["imm16"] ++ ["scoreboard"]))) 0
     = nth_error (C.values (immediate_enum ["imm16"])) 0.
Proof.
  apply (appended_names_keep_the_values
           ["add"; "mov"] ["fma"] ["imm16"] ["scoreboard"] 1 0);
    cbn; lia.
Defined.
